(** * University of Madras result scraper: a shallow embedding of [app.py]

    The development follows the source file top-down:
    - Python strings and insertion-ordered dictionaries;
    - the part of the Selenium API the scraper calls (pages, elements,
      exceptions), as data a test double would provide;
    - [scrape_result], the retry loop around locate / submit / classify /
      extract, in a small monad that threads the log of side effects and the
      three ways a Python block can end (fall through, [return], raise);
    - [process_results_for_export], over a model of [pandas.DataFrame];
    - [get_result] and the batch loop of the "Scrape Results" button.

    Strings are ASCII strings: [lower], [upper] and [strip] act on the ASCII
    range only. *)

From Stdlib Require Import String Ascii List Arith Bool Lia.
From Stdlib Require Import Permutation Sorted RelationClasses.
From Stdlib Require Import DecimalString DecimalNat NArith.
Import ListNotations.
Open Scope string_scope.
Open Scope list_scope.
Open Scope nat_scope.
Set Implicit Arguments.

(** ** Python strings *)

Module PyStr.

Definition len (s : string) : nat := String.length s.

(** Truth value of a string in a condition: [if text:]. *)
Definition truthy (s : string) : bool :=
  match s with EmptyString => false | String _ _ => true end.

Definition is_upper_char (c : ascii) : bool :=
  let n := nat_of_ascii c in (65 <=? n) && (n <=? 90).
Definition is_lower_char (c : ascii) : bool :=
  let n := nat_of_ascii c in (97 <=? n) && (n <=? 122).
Definition is_digit_char (c : ascii) : bool :=
  let n := nat_of_ascii c in (48 <=? n) && (n <=? 57).
Definition is_alnum_char (c : ascii) : bool :=
  is_upper_char c || is_lower_char c || is_digit_char c.

(** Whitespace removed by [str.strip()]: tab, LF, VT, FF, CR, the four
    separators 0x1c-0x1f and the space. *)
Definition is_space_char (c : ascii) : bool :=
  let n := nat_of_ascii c in
  ((9 <=? n) && (n <=? 13)) || ((28 <=? n) && (n <=? 31)) || (n =? 32).

Definition lower_char (c : ascii) : ascii :=
  if is_upper_char c then ascii_of_nat (nat_of_ascii c + 32) else c.
Definition upper_char (c : ascii) : ascii :=
  if is_lower_char c then ascii_of_nat (nat_of_ascii c - 32) else c.

Fixpoint map_chars (f : ascii -> ascii) (s : string) : string :=
  match s with
  | EmptyString => EmptyString
  | String c s' => String (f c) (map_chars f s')
  end.

Definition lower : string -> string := map_chars lower_char.
Definition upper : string -> string := map_chars upper_char.

Fixpoint lstrip (s : string) : string :=
  match s with
  | EmptyString => EmptyString
  | String c s' => if is_space_char c then lstrip s' else s
  end.

(** [rstrip] keeps a character when it is not a space or when something
    survives to its right. *)
Fixpoint rstrip (s : string) : string :=
  match s with
  | EmptyString => EmptyString
  | String c s' =>
      match rstrip s' with
      | EmptyString => if is_space_char c then EmptyString else String c EmptyString
      | r => String c r
      end
  end.

Definition strip (s : string) : string := rstrip (lstrip s).

(** [sub in s]. *)
Fixpoint contains (sub s : string) : bool :=
  String.prefix sub s ||
  match s with
  | EmptyString => false
  | String _ s' => contains sub s'
  end.

(** [c in s] for a single character, used by the lemmas on keys. *)
Fixpoint has_char (c : ascii) (s : string) : bool :=
  match s with
  | EmptyString => false
  | String d s' => Ascii.eqb c d || has_char c s'
  end.

Fixpoint all_chars (p : ascii -> bool) (s : string) : bool :=
  match s with
  | EmptyString => true
  | String c s' => p c && all_chars p s'
  end.

(** [str(n)] for a non-negative integer. *)
Definition str (n : nat) : string := NilZero.string_of_uint (Nat.to_uint n).

(** [int(s)] on a string of decimal digits (leading zeros allowed). *)
Definition digit_value (c : ascii) : nat := nat_of_ascii c - 48.
Fixpoint int_acc (acc : nat) (s : string) : nat :=
  match s with
  | EmptyString => acc
  | String c s' => int_acc (10 * acc + digit_value c) s'
  end.
Definition int (s : string) : nat := int_acc 0 s.

End PyStr.

(** ** Python dictionaries with string keys

    Insertion order is what [pandas.DataFrame] reads the column order from,
    so a dictionary is an association list: assigning to a present key
    replaces the value in place, assigning to a new key appends. *)

Definition dict := list (string * string).

Fixpoint dict_get (d : dict) (k : string) : option string :=
  match d with
  | [] => None
  | (k', v) :: d' => if String.eqb k k' then Some v else dict_get d' k
  end.

Definition dict_has (d : dict) (k : string) : bool :=
  match dict_get d k with Some _ => true | None => false end.

(** [d[k] = v] *)
Fixpoint dict_set (d : dict) (k v : string) : dict :=
  match d with
  | [] => [(k, v)]
  | (k', v') :: d' =>
      if String.eqb k k' then (k', v) :: d' else (k', v') :: dict_set d' k v
  end.

(** [d.get(k, default)] *)
Definition dict_get_default (d : dict) (k default : string) : string :=
  match dict_get d k with Some v => v | None => default end.

(** [d.update(other)] *)
Definition dict_update (d other : dict) : dict :=
  fold_left (fun acc kv => dict_set acc (fst kv) (snd kv)) other d.

Definition dict_keys (d : dict) : list string := map fst d.

(** ** The Selenium interface used by the scraper

    The target page is outside the program, so a browser session is data:
    what every call the scraper makes would answer.  Each call that talks to
    the browser either answers or raises. *)

Inductive By := NAME | ID | CSS_SELECTOR | XPATH | TAG_NAME.

(** Exceptions the code distinguishes in its [except] clauses, each with its
    [str(e)].  [WebDriverException] stands for every other exception. *)
Inductive exn :=
| TimeoutException (msg : string)
| NoSuchElementException (msg : string)
| WebDriverException (msg : string).

Definition exn_str (e : exn) : string :=
  match e with
  | TimeoutException m | NoSuchElementException m | WebDriverException m => m
  end.

Definition is_timeout (e : exn) : bool :=
  match e with TimeoutException _ => true | _ => false end.
Definition is_no_such_element (e : exn) : bool :=
  match e with NoSuchElementException _ => true | _ => false end.
(** A bare [except:] or [except Exception]. *)
Definition any_exception (e : exn) : bool := true.

Inductive result (A : Type) : Type :=
| Ok (a : A)
| Raise (e : exn).
Arguments Ok {A} a.
Arguments Raise {A} e.

(** A [WebElement]: its rendered text, its attributes, the elements found
    from it, and the outcome of acting on it. *)
#[warnings="-register-all"]
Inductive WebElement : Type := mkWebElement {
  el_text : string;
  el_get_attribute : string -> option string;
  el_find_elements : By -> string -> result (list WebElement);
  el_clear : result unit;
  el_send_keys : string -> result unit;
  el_click : result unit
}.

(** What the driver shows at one moment. *)
Record Page : Type := mkPage {
  page_source : string;
  find_elements : By -> string -> result (list WebElement)
}.

(** One [driver.get(url)]: whether the navigation raises, the page it loads
    and the page shown once the submit control was clicked. *)
Record Visit : Type := mkVisit {
  get_outcome : result unit;
  form_page : Page;
  landed_page : Page
}.

(** A browser session: the n-th call of [driver.get] (counting from 0) is
    answered by [visit n]. *)
Record WebDriver : Type := mkWebDriver {
  visit : nat -> Visit;
  quit : result unit
}.

(** [find_element] raises [NoSuchElementException] where [find_elements]
    answers the empty list. *)
Definition first_or_no_such {A} (r : result (list A)) : result A :=
  match r with
  | Ok (e :: _) => Ok e
  | Ok [] => Raise (NoSuchElementException "no such element")
  | Raise e => Raise e
  end.

Definition find_element (p : Page) (by_ : By) (value : string) : result WebElement :=
  first_or_no_such (find_elements p by_ value).

Definition el_find_element (el : WebElement) (by_ : By) (value : string)
  : result WebElement :=
  first_or_no_such (el_find_elements el by_ value).

(** [WebDriverWait(driver, 10).until(EC.presence_of_element_located(...))]:
    the poll ignores [NoSuchElementException] and ends in
    [TimeoutException]. *)
Definition wait_presence (p : Page) (by_ : By) (value : string) : result WebElement :=
  match find_elements p by_ value with
  | Ok (e :: _) => Ok e
  | Ok [] => Raise (TimeoutException "timeout")
  | Raise (NoSuchElementException _) => Raise (TimeoutException "timeout")
  | Raise e => Raise e
  end.

(** ** Side effects and control flow

    What a run does to the browser and to the disk, in order.  [MakeDirs]
    stands for creating the directory when it is missing; an action on an
    element is logged when it is called, whether or not it then raises. *)

Inductive event :=
| Get (url : string)
| Sleep (seconds : nat)
| MakeDirs (path : string)
| SaveScreenshot (path : string)
| WriteFile (path : string)
| Clear
| SendKeys (keys : string)
| Click.

Definition event_eqb (a b : event) : bool :=
  match a, b with
  | Get x, Get y | MakeDirs x, MakeDirs y | SaveScreenshot x, SaveScreenshot y
  | WriteFile x, WriteFile y | SendKeys x, SendKeys y => String.eqb x y
  | Sleep n, Sleep m => Nat.eqb n m
  | Clear, Clear | Click, Click => true
  | _, _ => false
  end.

Definition is_get (e : event) : bool :=
  match e with Get _ => true | _ => false end.
Definition is_click (e : event) : bool :=
  match e with Click => true | _ => false end.

Definition count_events (p : event -> bool) (tr : list event) : nat :=
  List.length (filter p tr).

(** How a block of the loop body ends. *)
Inductive flow (A : Type) : Type :=
| Next (a : A)
| Return (r : dict * bool)
| Throw (e : exn).
Arguments Next {A} a.
Arguments Return {A} r.
Arguments Throw {A} e.

Definition M (A : Type) : Type := list event -> flow A * list event.

Definition ret {A} (a : A) : M A := fun tr => (Next a, tr).

Definition bind {A B} (m : M A) (f : A -> M B) : M B :=
  fun tr =>
    match m tr with
    | (Next a, tr') => f a tr'
    | (Return r, tr') => (Return r, tr')
    | (Throw e, tr') => (Throw e, tr')
    end.

Definition emit (ev : event) : M unit := fun tr => (Next tt, tr ++ [ev]).

Definition return_ {A} (r : dict * bool) : M A := fun tr => (Return r, tr).

Definition lift {A} (r : result A) : M A :=
  fun tr => match r with Ok a => (Next a, tr) | Raise e => (Throw e, tr) end.

(** [try: m  except <catches>: handler] *)
Definition try_except {A} (m : M A) (catches : exn -> bool) (handler : M A) : M A :=
  fun tr =>
    match m tr with
    | (Throw e, tr') => if catches e then handler tr' else (Throw e, tr')
    | other => other
    end.

Declare Scope py_scope.
Delimit Scope py_scope with py.
Notation "x <- m ;; k" := (bind m (fun x => k))
  (at level 100, m at next level, right associativity) : py_scope.
Notation "m ;;; k" := (bind m (fun _ => k))
  (at level 100, right associativity) : py_scope.

(** [try: r  except <catches>: fallback] on a call that only answers. *)
Definition or_else {A} (r : result A) (catches : exn -> bool) (fallback : result A)
  : result A :=
  match r with
  | Raise e => if catches e then fallback else Raise e
  | ok => ok
  end.

Definition rbind {A B} (r : result A) (f : A -> result B) : result B :=
  match r with Ok a => f a | Raise e => Raise e end.

(** [try: x = r  except NoSuchElementException: pass], [x] being [None]
    before. *)
Definition optional (r : result WebElement) : result (option WebElement) :=
  match r with
  | Ok e => Ok (Some e)
  | Raise e => if is_no_such_element e then Ok None else Raise e
  end.

(** [if x is None: x = r] *)
Definition if_none {A} (x : option A) (r : result (option A)) : result (option A) :=
  match x with Some _ => Ok x | None => r end.

(** [try: ...  except: pass] around a block that leaves [None] when it
    raises. *)
Definition swallow {A} (r : result (option A)) : option A :=
  match r with Ok x => x | Raise _ => None end.

Definition attr_is (el : WebElement) (name value : string) : bool :=
  match el_get_attribute el name with
  | Some v => String.eqb v value
  | None => false
  end.

(** ** [scrape_result]: locating the form (lines 103-281) *)

Definition result_url : string :=
  "https://egovernance.unom.ac.in/results/ugresult.asp".

Definition registration_not_found : dict * bool :=
  ([("Error", "Could not find registration number input field")], false).
Definition dob_not_found : dict * bool :=
  ([("Error", "Could not find date of birth input field")], false).
Definition submit_not_found : dict * bool :=
  ([("Error", "Could not find submit button")], false).

Definition dump_form_not_found (reg_no : string) : M unit :=
  (emit (SaveScreenshot ("debug_info/form_not_found_" ++ reg_no ++ ".png")%string) ;;;
   emit (WriteFile ("debug_info/page_source_" ++ reg_no ++ ".html")%string))%py.

(** The cascade for the registration-number field.  Only the exception named
    in each [except] clause moves to the next method. *)
Definition locate_reg_input (p : Page) (reg_no : string) : M (option WebElement) :=
  (try_except (r <- lift (wait_presence p NAME "regno") ;; ret (Some r))
     is_timeout
  (try_except (r <- lift (find_element p ID "regno") ;; ret (Some r))
     is_no_such_element
  (try_except
     (r <- lift (find_element p CSS_SELECTOR "input[name*='reg'], input[id*='reg']") ;;
      ret (Some r))
     is_no_such_element
  (try_except
     (inputs <- lift (find_elements p XPATH "//input") ;;
      ret (find (fun inp => attr_is inp "type" "text") inputs))
     is_no_such_element
     (dump_form_not_found reg_no ;;; return_ registration_not_found)))))%py.

(** Method 4 of the date-of-birth cascade, for one label. *)
Definition dob_for_label (p : Page) (label : WebElement) : option WebElement :=
  match el_get_attribute label "for" with
  | Some (String _ _ as label_for) =>
      match find_element p ID label_for with
      | Ok e => Some e
      | Raise _ => None
      end
  | _ =>
      match el_find_element label XPATH "./.." with
      | Ok parent =>
          match el_find_elements parent XPATH "//input" with
          | Ok (i :: _) => Some i
          | _ => None
          end
      | Raise _ => None
      end
  end.

Fixpoint dob_from_labels (p : Page) (dob_labels : list WebElement) : option WebElement :=
  match dob_labels with
  | [] => None
  | label :: rest =>
      match dob_for_label p label with
      | Some e => Some e
      | None => dob_from_labels p rest
      end
  end.

Definition dob_by_label (p : Page) : option WebElement :=
  match find_elements p XPATH "//label[normalize-space()='Date of Birth']" with
  | Ok dob_labels => dob_from_labels p dob_labels
  | Raise _ => None
  end.

(** Method 5: the second input of the page. *)
Definition dob_second_input (p : Page) : option WebElement :=
  match find_elements p XPATH "//input" with
  | Ok (_ :: second :: _) => Some second
  | _ => None
  end.

Definition locate_dob_input (p : Page) : result (option WebElement) :=
  rbind (optional (find_element p NAME "dob")) (fun dob_input =>
  rbind (if_none dob_input (optional (find_element p ID "dob"))) (fun dob_input =>
  rbind (if_none dob_input (optional (find_element p CSS_SELECTOR
      "input[placeholder*='date'], input[placeholder*='birth'], input[placeholder*='dob']")))
    (fun dob_input =>
  rbind (if_none dob_input (Ok (dob_by_label p))) (fun dob_input =>
  if_none dob_input (Ok (dob_second_input p)))))).

Definition button_locators : list (By * string) :=
  [ (XPATH, "//input[@type='submit']");
    (XPATH, "//button[@type='submit']");
    (XPATH, "//input[@value='Submit']");
    (XPATH, "//button[normalize-space()='Submit']");
    (XPATH, "//input[@value='Get']");
    (XPATH, "//button[normalize-space()='Get']");
    (XPATH, "//input[@class='btn']");
    (XPATH, "//button[@class='btn']");
    (XPATH, "//input[@type='button']");
    (XPATH, "//button");
    (XPATH, "//input[@type='image']");
    (XPATH, "//input[contains(@value, 'ubmit')]");
    (XPATH, "//input[contains(@value, 'earch')]");
    (XPATH, "//input[contains(@value, 'ook')]");
    (XPATH, "//input[contains(@value, 'et')]");
    (XPATH, "//input[contains(@onclick, 'submit')]");
    (CSS_SELECTOR, "form button");
    (CSS_SELECTOR, "form input[type='submit']");
    (CSS_SELECTOR, "form input[type='button']");
    (CSS_SELECTOR, ".btn");
    (CSS_SELECTOR, ".button") ].

Fixpoint first_located (p : Page) (locators : list (By * string)) : option WebElement :=
  match locators with
  | [] => None
  | (by_, value) :: rest =>
      match find_elements p by_ value with
      | Ok (e :: _) => Some e
      | _ => first_located p rest
      end
  end.

Definition looks_like_submit (input_elem : WebElement) : bool :=
  let input_type := el_get_attribute input_elem "type" in
  let input_value := el_get_attribute input_elem "value" in
  match input_type with
  | Some t => String.eqb t "button" || String.eqb t "submit" || String.eqb t "image"
  | None => false
  end ||
  match input_value with
  | Some v => PyStr.truthy v && (PyStr.len v <? 15)
  | None => false
  end.

Definition fallback_submit (p : Page) : option WebElement :=
  swallow
    (rbind (find_elements p XPATH "//input") (fun all_inputs =>
     rbind (find_elements p XPATH "//button") (fun all_buttons =>
     Ok match find looks_like_submit all_inputs with
        | Some input_elem => Some input_elem
        | None => hd_error all_buttons
        end))).

Definition locate_submit_button (p : Page) : option WebElement :=
  match first_located p button_locators with
  | Some b => Some b
  | None => fallback_submit p
  end.

(** Lines 103-285: load the form, fill the two fields, click. *)
Definition fill_and_submit (v : Visit) (reg_no dob : string) : M unit :=
  (emit (Get result_url) ;;;
   lift (get_outcome v) ;;;
   emit (Sleep 2) ;;;
   emit (MakeDirs "debug_info") ;;;
   emit (SaveScreenshot ("debug_info/initial_page_" ++ reg_no ++ ".png")%string) ;;;
   reg_input <- locate_reg_input (form_page v) reg_no ;;
   match reg_input with
   | None => dump_form_not_found reg_no ;;; return_ registration_not_found
   | Some reg_input =>
       emit Clear ;;; lift (el_clear reg_input) ;;;
       emit (SendKeys reg_no) ;;; lift (el_send_keys reg_input reg_no) ;;;
       dob_input <- lift (locate_dob_input (form_page v)) ;;
       match dob_input with
       | None =>
           emit (SaveScreenshot ("debug_info/dob_not_found_" ++ reg_no ++ ".png")%string) ;;;
           emit (WriteFile ("debug_info/page_source_dob_" ++ reg_no ++ ".html")%string) ;;;
           return_ dob_not_found
       | Some dob_input =>
           emit Clear ;;; lift (el_clear dob_input) ;;;
           emit (SendKeys dob) ;;; lift (el_send_keys dob_input dob) ;;;
           match locate_submit_button (form_page v) with
           | None =>
               emit (MakeDirs "debug_info") ;;;
               emit (SaveScreenshot ("debug_info/submit_not_found_" ++ reg_no ++ ".png")%string) ;;;
               emit (WriteFile ("debug_info/page_source_submit_" ++ reg_no ++ ".html")%string) ;;;
               return_ submit_not_found
           | Some submit_button =>
               emit Click ;;; lift (el_click submit_button) ;;;
               emit (Sleep 3)
           end
       end
   end)%py.

(** ** [scrape_result]: classifying the page after submission (lines 287-301) *)

Definition error_messages : list string :=
  [ "Invalid Register Number";
    "Invalid Date of Birth";
    "No Results Found";
    "Record not found" ].

(** The first message of the list found in the page, if any. *)
Definition known_error (source : string) : option string :=
  find (fun error_msg => PyStr.contains (PyStr.lower error_msg) (PyStr.lower source))
       error_messages.

Definition website_error (error_msg reg_no dob : string) : dict * bool :=
  ([ ("Error", ("Website returned error: " ++ error_msg)%string);
     ("Register Number", reg_no);
     ("Date of Birth", dob) ], false).

(** ** [scrape_result]: the student name (lines 311-397) *)

Definition name_selectors : list string :=
  [ "//td[contains(text(), 'Name') or contains(text(), 'NAME') or contains(text(), 'name')]/following-sibling::td";
    "//th[contains(text(), 'Name') or contains(text(), 'NAME') or contains(text(), 'name')]/following-sibling::td";
    "//tr[contains(.,'Name') or contains(.,'NAME') or contains(.,'name')]/td[2]";
    "//label[contains(text(), 'Name') or contains(text(), 'NAME') or contains(text(), 'name')]/following-sibling::*";
    "//div[contains(text(), 'Name') or contains(text(), 'NAME') or contains(text(), 'name')]/following-sibling::*";
    "//td[contains(text(), 'Candidate') or contains(text(), 'CANDIDATE')]/following-sibling::td" ].

Definition name_extraction_failed : string := "Name extraction failed".

(** The filter of the first attempt (lines 332-337). *)
Definition selector_filter (text : string) : bool :=
  PyStr.truthy text &&
  (3 <? PyStr.len text) &&
  negb (PyStr.contains "university" (PyStr.lower text)) &&
  negb (PyStr.contains "madras" (PyStr.lower text)) &&
  negb (PyStr.contains "institution" (PyStr.lower text)) &&
  negb (PyStr.contains "college" (PyStr.lower text)).

(** The filter of the row scan (lines 359-362) and of the final verification
    (lines 374-377). *)
Definition row_filter (second_cell : string) : bool :=
  PyStr.truthy second_cell &&
  negb (PyStr.contains "university" (PyStr.lower second_cell)) &&
  negb (PyStr.contains "madras" (PyStr.lower second_cell)) &&
  (3 <? PyStr.len second_cell).

(** The filter of the scan of bold text (lines 386-390). *)
Definition bold_filter (text : string) : bool :=
  (3 <? PyStr.len text) &&
  negb (PyStr.contains ":" text) &&
  negb (PyStr.contains "university" (PyStr.lower text)) &&
  negb (PyStr.contains "madras" (PyStr.lower text)) &&
  negb (String.eqb (PyStr.upper text) text).

(** First attempt: the selectors in order, the first element that passes. *)
Fixpoint name_by_selectors (p : Page) (selectors : list string) : option WebElement :=
  match selectors with
  | [] => None
  | selector :: rest =>
      match find_elements p XPATH selector with
      | Ok elements =>
          match find (fun element => selector_filter (PyStr.strip (el_text element)))
                     elements with
          | Some element => Some element
          | None => name_by_selectors p rest
          end
      | Raise _ => name_by_selectors p rest
      end
  end.

Definition labels_name (first_cell : string) : bool :=
  PyStr.contains "name" first_cell ||
  PyStr.contains "student" first_cell ||
  PyStr.contains "candidate" first_cell.

(** The cell a row offers as the name, if any (lines 353-364). *)
Definition name_in_cells (cells : list WebElement) : option WebElement :=
  match cells with
  | c0 :: c1 :: _ =>
      let first_cell := PyStr.strip (PyStr.lower (el_text c0)) in
      if labels_name first_cell && row_filter (PyStr.strip (el_text c1))
      then Some c1 else None
  | _ => None
  end.

Fixpoint name_in_rows (rows : list WebElement) : result (option WebElement) :=
  match rows with
  | [] => Ok None
  | row :: rest =>
      rbind (el_find_elements row TAG_NAME "td") (fun cells =>
      match name_in_cells cells with
      | Some c => Ok (Some c)
      | None => name_in_rows rest
      end)
  end.

Fixpoint name_in_tables (tables : list WebElement) : result (option WebElement) :=
  match tables with
  | [] => Ok None
  | table :: rest =>
      rbind (el_find_elements table TAG_NAME "tr") (fun rows =>
      rbind (name_in_rows rows) (fun name_element =>
      match name_element with
      | Some c => Ok (Some c)
      | None => name_in_tables rest
      end))
  end.

(** Second attempt, under [try: ... except: pass]. *)
Definition name_by_rows (p : Page) : option WebElement :=
  swallow (rbind (find_elements p TAG_NAME "table") name_in_tables).

(** Third attempt: the first bold text that passes, else the sentinel
    (the [for ... else]). *)
Definition name_by_bold (bold_elements : list WebElement) : string :=
  match find bold_filter (map (fun element => PyStr.strip (el_text element)) bold_elements) with
  | Some text => text
  | None => name_extraction_failed
  end.

(** The value stored under "Student Name"; the outer [except Exception]
    stores the sentinel. *)
Definition extract_student_name (p : Page) : string :=
  let name_element :=
    match name_by_selectors p name_selectors with
    | Some e => Some e
    | None => name_by_rows p
    end in
  match name_element with
  | Some e =>
      let student_name := PyStr.strip (el_text e) in
      if row_filter student_name then student_name else name_extraction_failed
  | None =>
      match find_elements p XPATH "//b | //strong" with
      | Ok bold_elements => name_by_bold bold_elements
      | Raise _ => name_extraction_failed
      end
  end.

(** ** [scrape_result]: subjects and marks (lines 399-437) *)

(** [f"{subject_code}_{i}"] *)
Definition subject_key (subject_code : string) (i : nat) : string :=
  (subject_code ++ "_" ++ PyStr.str i)%string.

(** [for i, mark in enumerate(marks): subject_results[key] = mark], from
    index [i] on. *)
Fixpoint store_marks (subject_results : dict) (subject_code : string) (i : nat)
    (marks : list string) : dict :=
  match marks with
  | [] => subject_results
  | mark :: rest =>
      store_marks (dict_set subject_results (subject_key subject_code i) mark)
                  subject_code (S i) rest
  end.

(** One row (lines 409-432). *)
Definition scan_cells (subject_results : dict) (cells : list WebElement) : dict :=
  if 3 <=? List.length cells then
    match cells with
    | [] => subject_results
    | c0 :: _ =>
        let first_cell_text := PyStr.strip (el_text c0) in
        if PyStr.truthy first_cell_text && (PyStr.len first_cell_text <=? 15) then
          let subject_code := first_cell_text in
          let marks := map (fun c => PyStr.strip (el_text c)) (skipn 2 cells) in
          if PyStr.truthy subject_code
          then store_marks subject_results subject_code 0 marks
          else subject_results
        else subject_results
    end
  else subject_results.

(** The rows of one table; a row that raises ends the table ([except:
    continue] is outside the row loop) and keeps what was stored. *)
Fixpoint scan_rows (subject_results : dict) (rows : list WebElement) : dict :=
  match rows with
  | [] => subject_results
  | row :: rest =>
      match el_find_elements row TAG_NAME "td" with
      | Ok cells => scan_rows (scan_cells subject_results cells) rest
      | Raise _ => subject_results
      end
  end.

Fixpoint scan_tables (subject_results : dict) (tables : list WebElement) : dict :=
  match tables with
  | [] => subject_results
  | table :: rest =>
      match el_find_elements table TAG_NAME "tr" with
      | Ok rows => scan_tables (scan_rows subject_results rows) rest
      | Raise _ => scan_tables subject_results rest
      end
  end.

Definition extraction_failed (reg_no dob : string) : dict * bool :=
  ([ ("Error", "Could not extract subject data from results page");
     ("Register Number", reg_no);
     ("Date of Birth", dob) ], false).

(** The original form is still displayed (line 444). *)
Definition form_still_visible (source : string) : bool :=
  PyStr.contains "submit" (PyStr.lower source) &&
  (PyStr.contains "regno" (PyStr.lower source) ||
   PyStr.contains "dob" (PyStr.lower source)).

(** Lines 287-454.  Falling through ([Next tt]) is the
    [retries += 1; continue] of line 446. *)
Definition classify_and_extract (v : Visit) (reg_no dob : string) : M unit :=
  let p := landed_page v in
  match known_error (page_source p) with
  | Some error_msg => return_ (website_error error_msg reg_no dob)
  | None =>
      (emit (SaveScreenshot ("debug_info/results_" ++ reg_no ++ ".png")%string) ;;;
       let results := dict_set (dict_set [] "Register Number" reg_no) "Date of Birth" dob in
       let results := dict_set results "Student Name" (extract_student_name p) in
       tables <- lift (find_elements p TAG_NAME "table") ;;
       let subject_results := scan_tables [] tables in
       let results := dict_update results subject_results in
       match subject_results with
       | _ :: _ => return_ (results, true)
       | [] =>
           if form_still_visible (page_source p)
           then ret tt
           else return_ (extraction_failed reg_no dob)
       end)%py
  end.

(** The body of the [try] (lines 103-454). *)
Definition attempt (v : Visit) (reg_no dob : string) : M unit :=
  (fill_and_submit v reg_no dob ;;; classify_and_extract v reg_no dob)%py.

(** ** [scrape_result]: the retry loop (lines 100-477) *)

Definition exception_result (e : exn) (reg_no dob : string) : dict * bool :=
  ([ ("Error", ("Exception: " ++ exn_str e)%string);
     ("Register Number", reg_no);
     ("Date of Birth", dob) ], false).

Definition max_retries_exceeded (reg_no dob : string) : dict * bool :=
  ([ ("Error", "Maximum retries exceeded");
     ("Register Number", reg_no);
     ("Date of Birth", dob) ], false).

(** [while retries < max_retries], by recursion on [remaining], which is
    [max_retries - retries] throughout ([scrape_loop_guard] below): the loop
    is left when nothing remains. *)
Fixpoint scrape_loop (remaining : nat) (driver : WebDriver) (reg_no dob : string)
    (max_retries retries : nat) (tr : list event) : (dict * bool) * list event :=
  match remaining with
  | 0 => (max_retries_exceeded reg_no dob, tr)
  | S remaining' =>
      match attempt (visit driver retries) reg_no dob tr with
      | (Return r, tr') => (r, tr')
      | (Next _, tr') =>
          scrape_loop remaining' driver reg_no dob max_retries (retries + 1) tr'
      | (Throw e, tr') =>
          let retries := retries + 1 in
          if max_retries <=? retries
          then (exception_result e reg_no dob, tr')
          else scrape_loop remaining' driver reg_no dob max_retries retries
                           (tr' ++ [Sleep 2])
      end
  end.

(** The result dictionary, the success flag, and the log of what was done to
    the browser and the disk. *)
Definition scrape_result (driver : WebDriver) (reg_no dob : string) (max_retries : nat)
  : (dict * bool) * list event :=
  scrape_loop max_retries driver reg_no dob max_retries 0 [].

(** ** [pandas.DataFrame], as far as the export uses it

    A frame built from a list of dictionaries has the union of their keys as
    columns, in order of first appearance, and one row per dictionary; a key
    a dictionary lacks gives a missing cell ([None], pandas' NaN). *)

Record DataFrame : Type := mkDataFrame {
  columns : list string;
  rows : list (list (option string))
}.

(** [pd.DataFrame()] *)
Definition empty_frame : DataFrame := mkDataFrame [] [].

Definition add_column (cols : list string) (k : string) : list string :=
  if existsb (String.eqb k) cols then cols else cols ++ [k].

Definition union_columns (records : list dict) : list string :=
  fold_left (fun cols r => fold_left add_column (dict_keys r) cols) records [].

(** [pd.DataFrame(records)] *)
Definition frame_of_records (records : list dict) : DataFrame :=
  let cols := union_columns records in
  mkDataFrame cols (map (fun r => map (dict_get r) cols) records).

(** The cell of row [i] under column [c]: [None] when the row or the column
    does not exist, [Some None] for a missing value. *)
Definition cell (df : DataFrame) (i : nat) (c : string) : option (option string) :=
  match nth_error (rows df) i with
  | None => None
  | Some r =>
      match find (fun kc => String.eqb c (fst kc)) (combine (columns df) r) with
      | Some (_, v) => Some v
      | None => None
      end
  end.

(** ** [process_results_for_export] (lines 509-590) *)

Module Export Normalizer.

(** Maximal prefix of characters satisfying [p], and the rest. *)
Fixpoint span (p : ascii -> bool) (s : string) : string * string :=
  match s with
  | EmptyString => (EmptyString, EmptyString)
  | String c s' =>
      if p c then let (a, b) := span p s' in (String c a, b)
      else (EmptyString, s)
  end.

Definition newline : string := String (ascii_of_nat 10) EmptyString.

(** [re.compile(r'^([A-Za-z0-9]+)_(\d+)$').match(key)]: the two groups.
    Both repetitions are followed by a character outside their class, so the
    greedy match is the only one; [$] also matches before a final newline. *)
Definition subject_code_pattern (key : string) : option (string * string) :=
  let (code, rest) := span PyStr.is_alnum_char key in
  match code, rest with
  | String _ _, String sep rest' =>
      if Ascii.eqb sep "_" then
        let (digits, tail) := span PyStr.is_digit_char rest' in
        match digits with
        | String _ _ =>
            if String.eqb tail "" || String.eqb tail newline
            then Some (code, digits) else None
        | EmptyString => None
        end
      else None
  | _, _ => None
  end.

(** A Python [set], as the list of its elements without repetition.  The
    order of the list is not observable: [list(s)] goes through
    [set_order] below. *)
Definition set_add {A} (eqb : A -> A -> bool) (x : A) (s : list A) : list A :=
  if existsb (eqb x) s then s else s ++ [x].

(** The order in which iterating a set yields its elements.  It depends on
    the hash seed of the interpreter, so it is a parameter of the run. *)
Definition set_order : Type := forall A : Type, list A -> list A.

Definition fair (order : set_order) : Prop :=
  forall (A : Type) (s : list A), Permutation (order A s) s.

(** [sorted(l)] for a total order decided by [leb]. *)
Fixpoint insert_sorted {A} (leb : A -> A -> bool) (x : A) (l : list A) : list A :=
  match l with
  | [] => [x]
  | y :: l' => if leb x y then x :: l else y :: insert_sorted leb x l'
  end.

Fixpoint sorted {A} (leb : A -> A -> bool) (l : list A) : list A :=
  match l with
  | [] => []
  | x :: l' => insert_sorted leb x (sorted leb l')
  end.

(** [all_subject_codes] and [all_subject_positions] of the first pass. *)
Record registry : Type := mkRegistry {
  all_subject_codes : list string;
  all_subject_positions : list (string * list nat)
}.

Fixpoint positions_get (m : list (string * list nat)) (code : string)
  : option (list nat) :=
  match m with
  | [] => None
  | (c, ps) :: m' => if String.eqb code c then Some ps else positions_get m' code
  end.

Fixpoint positions_set (m : list (string * list nat)) (code : string) (ps : list nat)
  : list (string * list nat) :=
  match m with
  | [] => [(code, ps)]
  | (c, ps') :: m' =>
      if String.eqb code c then (c, ps) :: m' else (c, ps') :: positions_set m' code ps
  end.

(** Lines 533-543 for one key. *)
Definition register_key (reg : registry) (key : string) : registry :=
  match subject_code_pattern key with
  | Some (subject_code, digits) =>
      let position := PyStr.int digits in
      let seen :=
        match positions_get (all_subject_positions reg) subject_code with
        | Some ps => ps
        | None => []
        end in
      mkRegistry (set_add String.eqb subject_code (all_subject_codes reg))
                 (positions_set (all_subject_positions reg) subject_code
                                (set_add Nat.eqb position seen))
  | None => reg
  end.

Definition first_pass (successful_results : list dict) : registry :=
  fold_left (fun reg result => fold_left register_key (dict_keys result) reg)
            successful_results (mkRegistry [] []).

(** Lines 563-575 for one subject code. *)
Definition fill_positions (result : dict) (subject_code : string) (positions : list nat)
    (student_row : dict) : dict :=
  fold_left
    (fun row position =>
       let key := subject_key subject_code position in
       let column_name :=
         if 1 <? List.length positions then subject_key subject_code position
         else subject_code in
       match dict_get result key with
       | Some v => dict_set row column_name v
       | None => dict_set row column_name ""
       end)
    positions student_row.

(** Lines 550-577 for one result. *)
Definition student_row_of (order : set_order) (reg : registry)
    (sorted_subject_codes : list string) (result : dict) : dict :=
  let student_row :=
    [ ("NAME", dict_get_default result "Student Name" "");
      ("REG NO", dict_get_default result "Register Number" "");
      ("DOB", dict_get_default result "Date of Birth" "") ] in
  fold_left
    (fun row subject_code =>
       let positions :=
         sorted Nat.leb
           (order nat match positions_get (all_subject_positions reg) subject_code with
                      | Some ps => ps
                      | None => []
                      end) in
       fill_positions result subject_code positions row)
    sorted_subject_codes student_row.

Definition is_failed (result : dict) : bool := dict_has result "Error".

Definition process_results_for_export (order : set_order) (all_results : list dict)
  : DataFrame * DataFrame :=
  let successful_results := filter (fun r => negb (is_failed r)) all_results in
  let failed_results := filter is_failed all_results in
  let df_failed :=
    match failed_results with
    | [] => empty_frame
    | _ :: _ => frame_of_records failed_results
    end in
  match successful_results with
  | _ :: _ =>
      let reg := first_pass successful_results in
      let sorted_subject_codes :=
        sorted String.leb (order string (all_subject_codes reg)) in
      let student_info :=
        map (student_row_of order reg sorted_subject_codes) successful_results in
      (frame_of_records student_info, df_failed)
  | [] => (empty_frame, df_failed)
  end.

End Normalizer.

(** ** [setup_driver], [get_result] and the batch loop *)

(** The machine the program runs on: what launching each browser gives. *)
Record Machine : Type := mkMachine {
  launch_chrome : bool -> result WebDriver;
  launch_firefox : bool -> result WebDriver
}.

(** Lines 51-83: every exception of the launch is reported and turned into
    [None]. *)
Definition setup_driver (m : Machine) (browser_type : string) (headless : bool)
  : option WebDriver :=
  if String.eqb browser_type "chrome" then
    match launch_chrome m headless with Ok d => Some d | Raise _ => None end
  else if String.eqb browser_type "firefox" then
    match launch_firefox m headless with Ok d => Some d | Raise _ => None end
  else None.

Definition driver_init_failed : dict * bool :=
  ([("Error", "Failed to initialize browser driver")], false).

Definition processing_error (e : exn) (regno dob : string) : dict * bool :=
  ([ ("Error", exn_str e);
     ("Register Number", regno);
     ("Date of Birth", dob) ], false).

(** Lines 593-639, with the default [max_retries] of [scrape_result].  The
    messages shown in the page are left out; an exception after the scrape
    (the handler of line 635) is the one [quit] answers with. *)
Definition get_result (m : Machine) (regno dob browser_choice : string)
    (headless : bool) (delay : nat) (debug_mode : bool)
  : (dict * bool) * list event :=
  match setup_driver m browser_choice headless with
  | None => (driver_init_failed, [])
  | Some driver =>
      let '(outcome, tr) := scrape_result driver regno dob 3 in
      let tr := if 0 <? delay then tr ++ [Sleep delay] else tr in
      match quit driver with
      | Ok _ => (outcome, tr)
      | Raise e => (processing_error e regno dob, tr)
      end
  end.

(** Lines 741-748: [machines i] is the machine as the [i]-th student finds
    it. *)
Fixpoint batch_loop (machines : nat -> Machine) (browser_type : string)
    (headless_mode : bool) (delay_seconds : nat) (debug_mode : bool)
    (i : nat) (queries : list (string * string)) (all_results : list dict)
  : list dict :=
  match queries with
  | [] => all_results
  | (reg_no, dob) :: rest =>
      let '(result, success, _) :=
        get_result (machines i) reg_no dob browser_type headless_mode
                   delay_seconds debug_mode in
      batch_loop machines browser_type headless_mode delay_seconds debug_mode
                 (S i) rest (all_results ++ [result])
  end.

(** Lines 727-760: the handler of the "Scrape Results" button, up to the two
    tables.  [None] when the handler does not run the loop. *)
Definition scrape_results (order : set_order) (machines : nat -> Machine)
    (reg_numbers dobs : list string) (browser_type : string) (headless_mode : bool)
    (delay_seconds : nat) (debug_mode : bool)
  : option (list dict * (DataFrame * DataFrame)) :=
  match reg_numbers, dobs with
  | _ :: _, _ :: _ =>
      if List.length reg_numbers =? List.length dobs then
        let all_results :=
          batch_loop machines browser_type headless_mode delay_seconds debug_mode
                     0 (combine reg_numbers dobs) [] in
        Some (all_results, process_results_for_export order all_results)
      else None
  | _, _ => None
  end.

(** ** Test doubles

    Concrete pages and sessions, used to run the definitions above. *)

Module Fake.

Definition by_eqb (a b : By) : bool :=
  match a, b with
  | NAME, NAME | ID, ID | CSS_SELECTOR, CSS_SELECTOR | XPATH, XPATH
  | TAG_NAME, TAG_NAME => true
  | _, _ => false
  end.

(** An element answering [found] to the one query [(by_, value)]. *)
Definition element (text : string) (attrs : list (string * string))
    (by_ : By) (value : string) (found : list WebElement) : WebElement :=
  mkWebElement text (dict_get attrs)
    (fun b v => if by_eqb b by_ && String.eqb v value then Ok found else Ok [])
    (Ok tt) (fun _ => Ok tt) (Ok tt).

Definition leaf (text : string) (attrs : list (string * string)) : WebElement :=
  element text attrs TAG_NAME "" [].

Definition td (text : string) : WebElement := leaf text [].
Definition tr (cells : list string) : WebElement :=
  element "" [] TAG_NAME "td" (map td cells).
Definition table (table_rows : list (list string)) : WebElement :=
  element "" [] TAG_NAME "tr" (map tr table_rows).

(** A page answering the listed queries, and nothing to the others. *)
Fixpoint answer (answers : list (By * string * list WebElement)) (b : By) (v : string)
  : result (list WebElement) :=
  match answers with
  | [] => Ok []
  | (b', v', found) :: rest =>
      if by_eqb b b' && String.eqb v v' then Ok found else answer rest b v
  end.

Definition page (source : string) (answers : list (By * string * list WebElement))
  : Page :=
  mkPage source (answer answers).

Definition blank_page : Page := page "" [].

(** The form as the site serves it: both fields by name, a submit input. *)
Definition form : Page :=
  page "<form><input name=regno><input name=dob><input type=submit></form>"
    [ (NAME, "regno", [leaf "" [("type", "text")]]);
      (NAME, "dob", [leaf "" [("type", "text")]]);
      (XPATH, "//input[@type='submit']", [leaf "" [("type", "submit")]]) ].

(** A page of results showing the given tables. *)
Definition results_page (source : string) (tables : list (list (list string))) : Page :=
  page source [ (TAG_NAME, "table", map table tables) ].

(** A session serving the same visit at every [driver.get]. *)
Definition steady (v : Visit) : WebDriver := mkWebDriver (fun _ => v) (Ok tt).

(** A session whose page never shows a form field. *)
Definition no_form : WebDriver := steady (mkVisit (Ok tt) blank_page blank_page).

(** A session that answers the submission with the given page. *)
Definition answering (landed : Page) : WebDriver :=
  steady (mkVisit (Ok tt) form landed).

Definition machine (d : WebDriver) : Machine :=
  mkMachine (fun _ => Ok d) (fun _ => Ok d).

(** Two ways a set can yield its elements. *)
Definition insertion_order : set_order := fun _ s => s.
Definition reverse_order : set_order := fun _ s => rev s.

End Fake.

(** ** Vocabulary of the properties *)

(** Attempts are counted by page loads, submissions by clicks on the submit
    control. *)
Definition attempts (tr : list event) : nat := count_events is_get tr.
Definition submissions (tr : list event) : nat := count_events is_click tr.

(** How the locate-fill-click phase of an attempt ends when it starts a
    scrape: [Next] after the click, [Return] when a field was not found,
    [Throw] when a call raised. *)
Definition locate_outcome (v : Visit) (reg_no dob : string) : flow unit :=
  fst (fill_and_submit v reg_no dob []).


Definition submitted (v : Visit) (reg_no dob : string) : Prop :=
  locate_outcome v reg_no dob = Next tt.

Definition shows_known_error (p : Page) : Prop :=
  exists error_msg,
    In error_msg error_messages /\
    PyStr.contains (PyStr.lower error_msg) (PyStr.lower (page_source p)) = true.

(** The three results of a locate failure. *)
Definition locate_failure (r : dict * bool) : Prop :=
  r = registration_not_found \/ r = dob_not_found \/ r = submit_not_found.

(** A key written by the extractor: a non-empty code, an underscore, an
    index. *)
Definition subject_key_shape (k : string) : Prop :=
  exists code i, PyStr.truthy code = true /\ k = subject_key code i.

Definition base_results (reg_no dob name : string) : dict :=
  [ ("Register Number", reg_no); ("Date of Birth", dob); ("Student Name", name) ].

(** The results [scrape_result] can end with, by the [return] statement
    they come from. *)
Inductive terminal (driver : WebDriver) (reg_no dob : string) (max_retries : nat)
  : dict * bool -> Prop :=
| T_locate r :
    locate_failure r -> terminal driver reg_no dob max_retries r
| T_site error_msg :
    In error_msg error_messages ->
    terminal driver reg_no dob max_retries (website_error error_msg reg_no dob)
| T_success n tables :
    n < max_retries ->
    find_elements (landed_page (visit driver n)) TAG_NAME "table" = Ok tables ->
    scan_tables [] tables <> [] ->
    terminal driver reg_no dob max_retries
      (dict_update
         (base_results reg_no dob (extract_student_name (landed_page (visit driver n))))
         (scan_tables [] tables), true)
| T_empty :
    terminal driver reg_no dob max_retries (extraction_failed reg_no dob)
| T_exception e :
    terminal driver reg_no dob max_retries (exception_result e reg_no dob)
| T_exhausted :
    terminal driver reg_no dob max_retries (max_retries_exceeded reg_no dob).


(** The rows the subject scan reads, in order: a table whose rows cannot be
    listed is skipped, a row whose cells cannot be listed ends its table. *)
Fixpoint rows_read_in (table_rows : list WebElement) : list (list WebElement) :=
  match table_rows with
  | [] => []
  | row :: rest =>
      match el_find_elements row TAG_NAME "td" with
      | Ok cells => cells :: rows_read_in rest
      | Raise _ => []
      end
  end.

Fixpoint rows_read (tables : list WebElement) : list (list WebElement) :=
  match tables with
  | [] => []
  | table :: rest =>
      match el_find_elements table TAG_NAME "tr" with
      | Ok table_rows => rows_read_in table_rows ++ rows_read rest
      | Raise _ => rows_read rest
      end
  end.

(** A qualifying row, its subject code and its marks. *)
Definition qualifying (cells : list WebElement) (code : string) (marks : list string)
  : Prop :=
  3 <= List.length cells /\
  (exists c0 rest, cells = c0 :: rest /\ code = PyStr.strip (el_text c0)) /\
  code <> "" /\
  PyStr.len code <= 15 /\
  marks = map (fun c => PyStr.strip (el_text c)) (skipn 2 cells).

(** Registry vocabulary: [observed rs code position] when some key of some
    result matches the pattern with that code and that position. *)
Definition observed (rs : list dict) (code : string) (position : nat) : Prop :=
  exists r key digits,
    In r rs /\ In key (dict_keys r) /\
    subject_code_pattern key = Some (code, digits) /\
    PyStr.int digits = position.

Definition single_position (rs : list dict) (code : string) : Prop :=
  exists p, observed rs code p /\ forall q, observed rs code q -> q = p.

Definition string_lt (a b : string) : Prop := String.ltb a b = true.

(** The layout of the registry columns: the observed codes in increasing
    order, each with its observed positions in increasing order. *)
Definition layout_of (rs : list dict) (layout : list (string * list nat)) : Prop :=
  StronglySorted string_lt (map fst layout) /\
  Forall (fun cp => snd cp <> [] /\ StronglySorted lt (snd cp)) layout /\
  forall code p, observed rs code p <-> exists ps, In (code, ps) layout /\ In p ps.

(** The column of a code at a position: the code alone when it has a single
    position, the suffixed name otherwise. *)
Definition column_name (code : string) (positions : list nat) (p : nat) : string :=
  match positions with
  | [_] => code
  | _ => subject_key code p
  end.

Definition registry_columns (layout : list (string * list nat)) : list string :=
  flat_map (fun cp => map (column_name (fst cp) (snd cp)) (snd cp)) layout.

Definition leading_columns : list string := ["NAME"; "REG NO"; "DOB"].


(** What the specification asks of every result: exactly one of the two
    shapes. *)
Definition exactly_one_shape (d : dict) : Prop :=
  (dict_has d "Error" = true /\
   forall code i, dict_has d (subject_key code i) = false) \/
  (dict_has d "Error" = false /\
   exists code i, PyStr.truthy code = true /\ dict_has d (subject_key code i) = true).

Definition flag_agrees (r : dict * bool) : Prop :=
  snd r = negb (dict_has (fst r) "Error").

Definition failure_shape (r : dict * bool) : Prop :=
  snd r = false /\
  dict_has (fst r) "Error" = true /\
  forall code i, dict_has (fst r) (subject_key code i) = false.

Definition success_shape (r : dict * bool) : Prop :=
  snd r = true /\
  dict_has (fst r) "Error" = false /\
  exists code i, PyStr.truthy code = true /\ dict_has (fst r) (subject_key code i) = true.

(** ** A logic for the blocks of the loop body

    [logs m Q]: run from any log, [m] appends some events [delta] to it and
    ends in a flow [fl] with [Q fl delta]. *)

Definition logs {A} (m : M A) (Q : flow A -> list event -> Prop) : Prop :=
  forall tr, exists delta, snd (m tr) = tr ++ delta /\ Q (fst (m tr)) delta.

(** What [fill_and_submit] guarantees. *)
Definition fill_post (fl : flow unit) (delta : list event) : Prop :=
  attempts delta = 1 /\
  match fl with
  | Next _ => submissions delta = 1
  | Return r => submissions delta = 0 /\ locate_failure r
  | Throw _ => submissions delta <= 1
  end.

(** The results [classify_and_extract] returns. *)
Definition extracted (v : Visit) (reg_no dob : string) (r : dict * bool) : Prop :=
  (exists error_msg,
      In error_msg error_messages /\ r = website_error error_msg reg_no dob) \/
  r = extraction_failed reg_no dob \/
  (exists tables,
      find_elements (landed_page v) TAG_NAME "table" = Ok tables /\
      scan_tables [] tables <> [] /\
      r = (dict_update (base_results reg_no dob (extract_student_name (landed_page v)))
                       (scan_tables [] tables), true)).

Definition classify_post (v : Visit) (reg_no dob : string)
    (fl : flow unit) (delta : list event) : Prop :=
  attempts delta = 0 /\ submissions delta = 0 /\
  match fl with
  | Return r => extracted v reg_no dob r
  | _ => True
  end.

Definition attempt_post (v : Visit) (reg_no dob : string)
    (fl : flow unit) (delta : list event) : Prop :=
  attempts delta = 1 /\ submissions delta <= 1 /\
  match fl with
  | Return r => locate_failure r \/ extracted v reg_no dob r
  | _ => True
  end.

(** Every key of [d] is a key of [d0] or was written by the subject scan. *)
Definition grown_by_subject_keys (d0 d : dict) : Prop :=
  forall k, In k (dict_keys d) -> In k (dict_keys d0) \/ subject_key_shape k.

(** ** The registry, as the proofs see it *)

Definition holds {A} (leb : A -> A -> bool) (a b : A) : Prop := leb a b = true.

Definition all_keys (rs : list dict) : list string := flat_map dict_keys rs.

Definition key_observes (key code : string) (p : nat) : Prop :=
  exists digits, subject_code_pattern key = Some (code, digits) /\ PyStr.int digits = p.

(** The registry after the keys [seen] were registered. *)
Record reg_inv (seen : list string) (reg : registry) : Prop := mk_reg_inv {
  inv_nodup : NoDup (all_subject_codes reg);
  inv_codes : forall code,
    In code (all_subject_codes reg) <->
    positions_get (all_subject_positions reg) code <> None;
  inv_positions : forall code ps,
    positions_get (all_subject_positions reg) code = Some ps ->
    NoDup ps /\ ps <> [] /\
    forall p, In p ps <-> exists key, In key seen /\ key_observes key code p;
  inv_complete : forall key code p,
    In key seen -> key_observes key code p ->
    positions_get (all_subject_positions reg) code <> None
}.

Definition alnum (code : string) : Prop :=
  PyStr.all_chars PyStr.is_alnum_char code = true.

Definition good_entry (cp : string * list nat) : Prop :=
  alnum (fst cp) /\ NoDup (snd cp).

(** The cells one result contributes under the registry columns. *)
Definition entry_cells (result : dict) (cp : string * list nat) : dict :=
  map (fun p => (column_name (fst cp) (snd cp) p,
                 dict_get_default result (subject_key (fst cp) p) ""))
      (snd cp).

Definition layout_cells (result : dict) (layout : list (string * list nat)) : dict :=
  flat_map (entry_cells result) layout.

Definition positions_of (reg : registry) (code : string) : list nat :=
  match positions_get (all_subject_positions reg) code with
  | Some ps => ps
  | None => []
  end.

Definition layout_for (order : set_order) (reg : registry) (codes : list string)
  : list (string * list nat) :=
  map (fun c => (c, sorted Nat.leb (order nat (positions_of reg c)))) codes.

(** [sorted_subject_codes] of line 546 and the layout the second pass
    follows. *)
Definition export_codes (order : set_order) (rs : list dict) : list string :=
  sorted String.leb (order string (all_subject_codes (first_pass rs))).

Definition export_layout (order : set_order) (rs : list dict)
  : list (string * list nat) :=
  layout_for order (first_pass rs) (export_codes order rs).

Definition leading_row (r : dict) : dict :=
  [ ("NAME", dict_get_default r "Student Name" "");
    ("REG NO", dict_get_default r "Register Number" "");
    ("DOB", dict_get_default r "Date of Birth" "") ].

(** The result the batch loop stores for the [i]-th query. *)
Definition result_of_query (machines : nat -> Machine) (browser_type : string)
    (headless_mode : bool) (delay_seconds : nat) (debug_mode : bool)
    (i : nat) (q : string * string) : dict :=
  fst (fst (get_result (machines i) (fst q) (snd q) browser_type headless_mode
                       delay_seconds debug_mode)).

(** ** Inputs of the examples *)

Module Example.

(** The site answers "Invalid Register Number". *)
Definition invalid_page : Page :=
  Fake.results_page "<html><body>Invalid Register Number</body></html>" [].

(** A page of results whose table lists the subject ENG twice. *)
Definition duplicate_rows : list (list string) :=
  [ ["ENG"; "English"; "78"; "x"; "A"];
    ["ENG"; "English"; "80"] ].

Definition duplicate_page : Page :=
  Fake.results_page "<html><body>Results</body></html>" [duplicate_rows].

(** A page of results naming the college where the name is looked for: the
    first and third selectors of [name_selectors] and the row scan all reach
    the cell next to "Name". *)
Definition college_page : Page :=
  Fake.page "<html><body>Results</body></html>"
    [ (XPATH,
       "//td[contains(text(), 'Name') or contains(text(), 'NAME') or contains(text(), 'name')]/following-sibling::td",
       [Fake.td "ABC College"]);
      (XPATH,
       "//tr[contains(.,'Name') or contains(.,'NAME') or contains(.,'name')]/td[2]",
       [Fake.td "ABC College"]);
      (TAG_NAME, "table",
       [Fake.table [ ["Name"; "ABC College"]; ["ENG"; "English"; "78"] ]]) ].

(** Two successes with codes MTH101 at positions 0 and 2 and PHY101 at
    position 0; the second lacks two of the keys. *)
Definition two_successes : list dict :=
  [ [ ("Register Number", "111"); ("Date of Birth", "01/01/2000");
      ("Student Name", "Asha"); ("MTH101_0", "78"); ("MTH101_2", "A");
      ("PHY101_0", "66") ];
    [ ("Register Number", "222"); ("Date of Birth", "02/02/2000");
      ("Student Name", "Ravi"); ("MTH101_0", "54") ] ].

(** A success whose page had a row starting with NAME. *)
Definition name_row_success : list dict :=
  [ [ ("Register Number", "111"); ("Date of Birth", "01/01/2000");
      ("Student Name", "Asha"); ("NAME_0", "ASHA") ] ].

End Example.

(** ** More of Python's [str]: [split], [isdigit], [join] *)

(** [s.split(sep)] for a separator of one character: the pieces between the
    separators, at least one piece. *)
Fixpoint split_on (sep : ascii) (s : string) : list string :=
  match s with
  | EmptyString => [EmptyString]
  | String c s' =>
      if Ascii.eqb c sep then EmptyString :: split_on sep s'
      else match split_on sep s' with
           | [] => [String c EmptyString]
           | piece :: pieces => String c piece :: pieces
           end
  end.

(** [s.isdigit()] *)
Definition isdigit (s : string) : bool :=
  PyStr.truthy s && PyStr.all_chars PyStr.is_digit_char s.

(** [sep.join(l)] *)
Definition join (sep : string) (l : list string) : string := String.concat sep l.

(** ** [validate_excel_file] (lines 480-506)

    The uploaded table, as far as the validation reads it: named columns of
    cells, a cell being a string, a null (NaN, None, NaT) or a value of
    another type (a number, a timestamp). *)

Inductive cell_value :=
| Text (s : string)
| Null
| Other.

Definition InputFrame := list (string * list cell_value).

(** [col in df.columns] *)
Definition has_column (df : InputFrame) (col : string) : bool :=
  existsb (fun kv => String.eqb col (fst kv)) df.

(** [df[col]] *)
Definition column (df : InputFrame) (col : string) : list cell_value :=
  match find (fun kv => String.eqb col (fst kv)) df with
  | Some (_, values) => values
  | None => []
  end.

Definition is_null (v : cell_value) : bool :=
  match v with Null => true | _ => false end.

Definition required_columns : list string := ["Register Number"; "Date of Birth"].

(** Line 503, negated: three pieces between slashes, all of digits. *)
Definition date_format_ok (dob : string) : bool :=
  let parts := split_on "/" dob in
  (List.length parts =? 3) && forallb isdigit parts.

Definition row_error (i : nat) (dob : string) : string :=
  ("Row " ++ PyStr.str (i + 1) ++ ": Date of birth '" ++ dob
   ++ "' is not in DD/MM/YYYY format")%string.

(** Lines 499-504, from row [i] on. *)
Fixpoint date_errors (i : nat) (date_col : list cell_value) : list string :=
  match date_col with
  | [] => []
  | v :: rest =>
      match v with
      | Text dob => if date_format_ok dob then [] else [row_error i dob]
      | _ => []
      end ++ date_errors (S i) rest
  end.

Definition validate_excel_file (df : InputFrame) : list string :=
  let missing_columns := filter (fun col => negb (has_column df col)) required_columns in
  match missing_columns with
  | [] => []
  | _ :: _ => [("Missing required columns: " ++ join ", " missing_columns)%string]
  end ++
  (if has_column df "Register Number" && existsb is_null (column df "Register Number")
   then ["Some register numbers are missing"] else []) ++
  (if has_column df "Date of Birth" && existsb is_null (column df "Date of Birth")
   then ["Some dates of birth are missing"] else []) ++
  (if has_column df "Date of Birth"
   then date_errors 0 (column df "Date of Birth") else []).

(** ** Manual entry (lines 690-703) *)

Definition newline_char : ascii := ascii_of_nat 10.

(** [[x.strip() for x in text.split("\n") if x.strip()]], under [if text:]. *)
Definition manual_entries (text : string) : list string :=
  if PyStr.truthy text
  then map PyStr.strip
           (filter (fun x => PyStr.truthy (PyStr.strip x)) (split_on newline_char text))
  else [].

(** Lines 700-703: the two lists are emptied when both are given and their
    lengths differ. *)
Definition manual_input (reg_input dob_input : string) : list string * list string :=
  let reg_numbers := manual_entries reg_input in
  let dobs := manual_entries dob_input in
  match reg_numbers, dobs with
  | _ :: _, _ :: _ =>
      if List.length reg_numbers =? List.length dobs then (reg_numbers, dobs) else ([], [])
  | _, _ => (reg_numbers, dobs)
  end.

(** ** Vocabulary of the further properties *)

(** How an attempt ends when it starts a scrape. *)
Definition attempt_outcome (v : Visit) (reg_no dob : string) : flow unit :=
  fst (attempt v reg_no dob []).

(** The flow of a block does not depend on the log it starts from. *)
Definition steady_flow {A} (m : M A) : Prop := forall tr, fst (m tr) = fst (m []).

(** The form was submitted and the page that follows shows no known error,
    no subject row, and still the form. *)
Definition form_stays (v : Visit) (reg_no dob : string) : Prop :=
  submitted v reg_no dob /\
  known_error (page_source (landed_page v)) = None /\
  (exists tables,
      find_elements (landed_page v) TAG_NAME "table" = Ok tables /\
      scan_tables [] tables = []) /\
  form_still_visible (page_source (landed_page v)) = true.

(** The only ways an attempt ends without a [return], seen from the loop. *)
Definition attempt_post_strict (fl : flow unit) (delta : list event) : Prop :=
  attempts delta = 1 /\
  match fl with
  | Next _ => submissions delta = 1
  | _ => submissions delta <= 1
  end.

(** A name the extractor may store: longer than three characters and free of
    the two tokens every path rejects. *)
Definition plausible_name (name : string) : Prop :=
  3 < PyStr.len name /\
  PyStr.contains "university" (PyStr.lower name) = false /\
  PyStr.contains "madras" (PyStr.lower name) = false.

(** A code the pattern of the normalizer matches. *)
Definition exportable (code : string) : bool :=
  PyStr.truthy code && PyStr.all_chars PyStr.is_alnum_char code.


Definition text_dates_ok (date_col : list cell_value) : Prop :=
  Forall (fun v => match v with Text dob => date_format_ok dob = true | _ => True end)
         date_col.

(** A string that is empty or starts with a character that is not a space. *)
Definition left_clean (s : string) : Prop :=
  match s with
  | EmptyString => True
  | String c _ => PyStr.is_space_char c = false
  end.

(** A locator that finds nothing on the page, or raises. *)
Definition answers_nothing (p : Page) (locator : By * string) : Prop :=
  match find_elements p (fst locator) (snd locator) with
  | Ok (_ :: _) => False
  | _ => True
  end.

(** ** Inputs of the further examples *)

Module More.

(** The site shows the form again after every submission. *)
Definition stuck_page : Page :=
  Fake.results_page "<form><input name=regno><input type=submit></form>" [].

(** A session whose every navigation raises. *)
Definition unreachable : WebDriver :=
  mkWebDriver
    (fun _ => mkVisit (Raise (WebDriverException "net::ERR_NAME_NOT_RESOLVED"))
                      Fake.blank_page Fake.blank_page)
    (Ok tt).

(** An upload with one date written with dashes. *)
Definition dashed_upload : InputFrame :=
  [ ("Register Number", [Text "111"; Text "222"]);
    ("Date of Birth", [Text "01/01/2000"; Text "02-02-2000"]) ].

End More.

(** * Proofs *)

Lemma count_events_app p a b : count_events p (a ++ b) = count_events p a + count_events p b.
Proof. unfold count_events. now rewrite filter_app, length_app. Qed.

Lemma logs_ret A (a : A) (Q : flow A -> list event -> Prop) :
  Q (Next a) [] -> logs (ret a) Q.
Proof. intros H tr. exists []. now rewrite app_nil_r. Qed.

Lemma logs_emit ev (Q : flow unit -> list event -> Prop) :
  Q (Next tt) [ev] -> logs (emit ev) Q.
Proof. intros H tr. now exists [ev]. Qed.

Lemma logs_return A r (Q : flow A -> list event -> Prop) :
  Q (Return r) [] -> logs (return_ r) Q.
Proof. intros H tr. exists []. now rewrite app_nil_r. Qed.

Lemma logs_lift A (r : result A) (Q : flow A -> list event -> Prop) :
  (forall a, r = Ok a -> Q (Next a) []) ->
  (forall e, r = Raise e -> Q (Throw e) []) ->
  logs (lift r) Q.
Proof.
  intros H1 H2 tr. exists []. rewrite app_nil_r. unfold lift.
  destruct r; simpl; auto.
Qed.

Lemma logs_bind A B (m : M A) (f : A -> M B) (Q : flow B -> list event -> Prop) :
  logs m (fun fl d1 =>
    match fl with
    | Next a => logs (f a) (fun fl2 d2 => Q fl2 (d1 ++ d2))
    | Return r => Q (Return r) d1
    | Throw e => Q (Throw e) d1
    end) ->
  logs (bind m f) Q.
Proof.
  intros H tr. destruct (H tr) as (d1 & E1 & H1). unfold bind.
  destruct (m tr) as [fl tr1]; simpl in *. subst tr1.
  destruct fl as [a|r|e]; simpl.
  - destruct (H1 (tr ++ d1)) as (d2 & E2 & H2).
    exists (d1 ++ d2). now rewrite app_assoc.
  - now exists d1.
  - now exists d1.
Qed.

Lemma logs_try A (m h : M A) (c : exn -> bool) (Q : flow A -> list event -> Prop) :
  logs m (fun fl d1 =>
    match fl with
    | Throw e => if c e then logs h (fun fl2 d2 => Q fl2 (d1 ++ d2)) else Q (Throw e) d1
    | other => Q other d1
    end) ->
  logs (try_except m c h) Q.
Proof.
  intros H tr. destruct (H tr) as (d1 & E1 & H1). unfold try_except.
  destruct (m tr) as [fl tr1]; simpl in *. subst tr1.
  destruct fl as [a|r|e]; simpl; try (now exists d1).
  destruct (c e).
  - destruct (H1 (tr ++ d1)) as (d2 & E2 & H2).
    exists (d1 ++ d2). now rewrite app_assoc.
  - now exists d1.
Qed.

Ltac log_step :=
  match goal with
  | |- logs (bind _ _) _ => apply logs_bind
  | |- logs (emit _) _ => apply logs_emit
  | |- logs (ret _) _ => apply logs_ret
  | |- logs (return_ _) _ => apply logs_return
  | |- logs (lift _) _ => apply logs_lift; intros
  | |- logs (try_except _ _ _) _ => apply logs_try
  | |- logs (match ?x with _ => _ end) _ => destruct x eqn:?
  | |- (if ?c then _ else _) => destruct c eqn:?
  end.

Lemma fill_and_submit_logs v reg_no dob : logs (fill_and_submit v reg_no dob) fill_post.
Proof.
  unfold fill_and_submit, locate_reg_input, dump_form_not_found.
  repeat log_step;
    unfold fill_post, attempts, submissions, locate_failure; simpl; auto; try lia.
Qed.

Lemma known_error_listed source error_msg :
  known_error source = Some error_msg -> In error_msg error_messages.
Proof. intros H. apply find_some in H. tauto. Qed.

Lemma classify_and_extract_logs v reg_no dob :
  logs (classify_and_extract v reg_no dob) (classify_post v reg_no dob).
Proof.
  unfold classify_and_extract.
  destruct (known_error (page_source (landed_page v))) as [error_msg|] eqn:K.
  - apply logs_return. repeat split; auto. left. exists error_msg.
    split; [eapply known_error_listed; eauto | reflexivity].
  - repeat log_step; unfold classify_post, attempts, submissions; simpl; auto.
    + repeat split; auto. right; left; reflexivity.
    + repeat split; auto. right; right. exists a. rewrite Heqd.
      repeat split; auto. discriminate.
Qed.

Lemma logs_weaken A (m : M A) (Q Q' : flow A -> list event -> Prop) :
  logs m Q -> (forall fl d, Q fl d -> Q' fl d) -> logs m Q'.
Proof. intros H HQ tr. destruct (H tr) as (d & E & HQd). eauto. Qed.

Lemma attempt_logs v reg_no dob : logs (attempt v reg_no dob) (attempt_post v reg_no dob).
Proof.
  unfold attempt. apply logs_bind.
  eapply logs_weaken; [apply fill_and_submit_logs|].
  intros fl d1 (Hget & Hfl). destruct fl as [[]|r|e].
  - eapply logs_weaken; [apply classify_and_extract_logs|].
    intros fl2 d2 (G2 & S2 & H2). unfold attempt_post, attempts, submissions in *.
    rewrite !count_events_app. repeat split; try lia.
    destruct fl2; auto.
  - unfold attempt_post. destruct Hfl. repeat split; auto; lia.
  - unfold attempt_post. repeat split; auto.
Qed.

(** The recursion of [scrape_loop] is the [while] of line 101: with
    [remaining = max_retries - retries], nothing remains exactly when the
    guard [retries < max_retries] fails. *)
Lemma scrape_loop_guard remaining driver reg_no dob max_retries retries tr :
  retries + remaining = max_retries ->
  scrape_loop remaining driver reg_no dob max_retries retries tr =
  if retries <? max_retries then
    match attempt (visit driver retries) reg_no dob tr with
    | (Return r, tr') => (r, tr')
    | (Next _, tr') =>
        scrape_loop (remaining - 1) driver reg_no dob max_retries (retries + 1) tr'
    | (Throw e, tr') =>
        if max_retries <=? retries + 1
        then (exception_result e reg_no dob, tr')
        else scrape_loop (remaining - 1) driver reg_no dob max_retries (retries + 1)
                         (tr' ++ [Sleep 2])
    end
  else (max_retries_exceeded reg_no dob, tr).
Proof.
  intros H. destruct (Nat.ltb_spec retries max_retries) as [L|L].
  - destruct remaining as [|remaining]; [lia|]. simpl. now rewrite Nat.sub_0_r.
  - destruct remaining as [|remaining]; [reflexivity|lia].
Qed.

Lemma scrape_loop_terminal driver reg_no dob max_retries :
  forall remaining retries tr,
    retries + remaining = max_retries ->
    exists delta,
      snd (scrape_loop remaining driver reg_no dob max_retries retries tr) = tr ++ delta /\
      attempts delta <= remaining /\
      submissions delta <= remaining /\
      terminal driver reg_no dob max_retries
        (fst (scrape_loop remaining driver reg_no dob max_retries retries tr)).
Proof.
  induction remaining as [|remaining IH]; intros retries tr Hsum; simpl.
  - exists []. rewrite app_nil_r. repeat split; auto. apply T_exhausted.
  - destruct (attempt_logs (visit driver retries) reg_no dob tr) as (d1 & E1 & G1 & S1 & H1).
    destruct (attempt (visit driver retries) reg_no dob tr) as [fl tr1]; simpl in *.
    subst tr1. destruct fl as [[]|r|e].
    + destruct (IH (retries + 1) (tr ++ d1)) as (d2 & E2 & G2 & S2 & T2); [lia|].
      exists (d1 ++ d2). rewrite app_assoc. unfold attempts, submissions in *.
      rewrite !count_events_app. split; [exact E2|]. split; [lia|]. split; [lia|exact T2].
    + exists d1. simpl. repeat split; auto; try lia.
      destruct H1 as [H1|[(m & Hm & ->)|[->|(tables & Ht & Hne & ->)]]].
      * now apply T_locate.
      * now apply T_site.
      * apply T_empty.
      * apply T_success; auto. lia.
    + destruct (max_retries <=? retries + 1).
      * exists d1. simpl. repeat split; auto; try lia. apply T_exception.
      * destruct (IH (retries + 1) ((tr ++ d1) ++ [Sleep 2])) as (d2 & E2 & G2 & S2 & T2); [lia|].
        exists (d1 ++ [Sleep 2] ++ d2).
        unfold attempts, submissions in *. rewrite !count_events_app.
        split; [rewrite E2; now rewrite <- !app_assoc|].
        split; [simpl; lia|]. split; [simpl; lia|exact T2].
Qed.

Lemma scrape_result_terminal driver reg_no dob max_retries :
  terminal driver reg_no dob max_retries (fst (scrape_result driver reg_no dob max_retries)).
Proof.
  destruct (@scrape_loop_terminal driver reg_no dob max_retries max_retries 0 [] eq_refl)
    as (d & _ & _ & _ & T). exact T.
Qed.

(** *** Strings *)

Lemma has_char_append c a b :
  PyStr.has_char c (a ++ b)%string = PyStr.has_char c a || PyStr.has_char c b.
Proof.
  induction a as [|d a IH]; simpl; auto. rewrite IH. now rewrite orb_assoc.
Qed.

Lemma subject_key_underscore code i :
  PyStr.has_char "_"%char (subject_key code i) = true.
Proof.
  unfold subject_key. rewrite has_char_append. simpl. apply orb_true_r.
Qed.

Lemma plain_key_not_subject_key k code i :
  PyStr.has_char "_"%char k = false -> String.eqb (subject_key code i) k = false.
Proof.
  intros H. apply String.eqb_neq. intros E.
  rewrite <- E, subject_key_underscore in H. discriminate.
Qed.

(** *** Dictionaries *)

Lemma dict_get_set d k v k' :
  dict_get (dict_set d k v) k' = if String.eqb k' k then Some v else dict_get d k'.
Proof.
  induction d as [|[k0 v0] d IH]; simpl.
  - reflexivity.
  - destruct (String.eqb_spec k k0) as [->|N]; simpl.
    + destruct (String.eqb k' k0); reflexivity.
    + rewrite IH. destruct (String.eqb_spec k' k0) as [->|N'].
      * destruct (String.eqb_spec k0 k); congruence.
      * reflexivity.
Qed.

Lemma dict_has_keys d k : dict_has d k = existsb (String.eqb k) (dict_keys d).
Proof.
  unfold dict_has. induction d as [|[k0 v0] d IH]; simpl; auto.
  destruct (String.eqb k k0); auto.
Qed.

Lemma dict_has_in d k : dict_has d k = true <-> In k (dict_keys d).
Proof.
  rewrite dict_has_keys, existsb_exists. split.
  - intros (x & Hx & E). apply String.eqb_eq in E. now subst.
  - intros H. exists k. split; auto. apply String.eqb_refl.
Qed.

Lemma dict_keys_set d k v :
  dict_keys (dict_set d k v) = if dict_has d k then dict_keys d else dict_keys d ++ [k].
Proof.
  unfold dict_has, dict_keys. induction d as [|[k0 v0] d IH]; simpl; auto.
  destruct (String.eqb k k0) eqn:E; simpl; auto.
  rewrite IH. destruct (dict_get d k); reflexivity.
Qed.

Lemma dict_keys_set_in d k v k' :
  In k' (dict_keys (dict_set d k v)) <-> k' = k \/ In k' (dict_keys d).
Proof.
  rewrite dict_keys_set. destruct (dict_has d k) eqn:H.
  - apply dict_has_in in H. split; auto. intros [->|]; auto.
  - rewrite in_app_iff. simpl. intuition.
Qed.

Lemma dict_set_nodup d k v : NoDup (dict_keys d) -> NoDup (dict_keys (dict_set d k v)).
Proof.
  intros H. rewrite dict_keys_set. destruct (dict_has d k) eqn:E; auto.
  apply NoDup_app; auto.
  - constructor; [intros []|constructor].
  - intros x Hx [<-|[]]. apply dict_has_in in Hx. congruence.
Qed.

Lemma dict_update_keys_in d other k :
  In k (dict_keys (dict_update d other)) <-> In k (dict_keys d) \/ In k (dict_keys other).
Proof.
  unfold dict_update. revert d. induction other as [|[k0 v0] o IH]; intros d; simpl.
  - tauto.
  - rewrite IH, dict_keys_set_in. intuition.
Qed.

Lemma dict_update_nodup d other :
  NoDup (dict_keys d) -> NoDup (dict_keys (dict_update d other)).
Proof.
  unfold dict_update. revert d. induction other as [|[k0 v0] o IH]; intros d H; simpl; auto.
  apply IH. now apply dict_set_nodup.
Qed.

(** With distinct keys in [other], [update] reads from [other] first. *)
Lemma dict_update_get d other k :
  NoDup (dict_keys other) ->
  dict_get (dict_update d other) k =
  match dict_get other k with Some v => Some v | None => dict_get d k end.
Proof.
  unfold dict_update. revert d. induction other as [|[k0 v0] o IH]; intros d H; simpl; auto.
  inversion H as [|? ? Hn Hnd]; subst. rewrite IH by assumption.
  destruct (String.eqb_spec k k0) as [->|N].
  - destruct (dict_get o k0) eqn:G.
    + exfalso. apply Hn. apply dict_has_in. unfold dict_has. now rewrite G.
    + rewrite dict_get_set, String.eqb_refl. reflexivity.
  - destruct (dict_get o k); auto. rewrite dict_get_set.
    destruct (String.eqb_spec k k0); congruence.
Qed.

(** *** Keys written by the subject scan *)

Lemma store_marks_keys code marks : PyStr.truthy code = true ->
  forall i d, grown_by_subject_keys d (store_marks d code i marks).
Proof.
  intros Hc. induction marks as [|m ms IH]; intros i d k Hk; simpl in *; auto.
  apply IH in Hk. destruct Hk as [Hk|Hk]; auto.
  apply dict_keys_set_in in Hk. destruct Hk as [->|Hk]; auto.
  right. now exists code, i.
Qed.

Lemma scan_cells_keys d cells : grown_by_subject_keys d (scan_cells d cells).
Proof.
  unfold scan_cells. intros k.
  destruct (3 <=? length cells); auto.
  destruct cells as [|c0 cells]; auto.
  destruct (PyStr.truthy (PyStr.strip (el_text c0))) eqn:T; simpl; auto.
  destruct (PyStr.len (PyStr.strip (el_text c0)) <=? 15); auto.
  now apply store_marks_keys.
Qed.

Lemma grown_trans d0 d1 d2 :
  grown_by_subject_keys d0 d1 -> grown_by_subject_keys d1 d2 -> grown_by_subject_keys d0 d2.
Proof. intros H1 H2 k Hk. apply H2 in Hk. destruct Hk; auto. Qed.

Lemma grown_refl d : grown_by_subject_keys d d.
Proof. intros k; auto. Qed.

Lemma scan_rows_keys rows : forall d, grown_by_subject_keys d (scan_rows d rows).
Proof.
  induction rows as [|row rows IH]; intros d; simpl.
  - apply grown_refl.
  - destruct (el_find_elements row TAG_NAME "td").
    + eapply grown_trans; [apply scan_cells_keys | apply IH].
    + apply grown_refl.
Qed.

Lemma scan_tables_keys tables : forall d, grown_by_subject_keys d (scan_tables d tables).
Proof.
  induction tables as [|t tables IH]; intros d; simpl.
  - apply grown_refl.
  - destruct (el_find_elements t TAG_NAME "tr"); auto.
    eapply grown_trans; [apply scan_rows_keys | apply IH].
Qed.

Lemma subject_results_keys tables k :
  In k (dict_keys (scan_tables [] tables)) -> subject_key_shape k.
Proof. intros H. apply scan_tables_keys in H. destruct H as [[]|H]; auto. Qed.

(** *** The two shapes *)

Ltac plain_keys :=
  unfold dict_has; simpl;
  repeat (rewrite plain_key_not_subject_key by reflexivity); reflexivity.

Lemma failure_with_query error_msg reg_no dob :
  failure_shape ([("Error", error_msg); ("Register Number", reg_no); ("Date of Birth", dob)], false).
Proof. repeat split. intros code i. plain_keys. Qed.

Lemma failure_bare error_msg : failure_shape ([("Error", error_msg)], false).
Proof. repeat split. intros code i. plain_keys. Qed.

Lemma terminal_shape driver reg_no dob max_retries r :
  terminal driver reg_no dob max_retries r -> failure_shape r \/ success_shape r.
Proof.
  intros T. destruct T as [r [-> | [-> | ->]] | m Hm | n tables Hn Ht Hne | | e | ];
    try (left; first [apply failure_with_query | apply failure_bare]).
  right. repeat split; simpl.
  - destruct (dict_has _ "Error") eqn:E; auto.
    apply dict_has_in, dict_update_keys_in in E. destruct E as [E|E].
    + simpl in E. repeat (destruct E as [E|E]; try discriminate). destruct E.
    + apply subject_results_keys in E. destruct E as (code & i & _ & E).
      pose proof (subject_key_underscore code i) as U. rewrite <- E in U. discriminate.
  - destruct (scan_tables [] tables) as [|[k v] d] eqn:S; [congruence|].
    assert (Hk : In k (dict_keys (scan_tables [] tables))) by (rewrite S; now left).
    destruct (subject_results_keys _ _ Hk) as (code & i & Hc & ->).
    exists code, i. split; auto. apply dict_has_in, dict_update_keys_in. right. now left.
Qed.

Lemma get_result_cases m regno dob browser_choice headless delay debug_mode :
  let r := fst (get_result m regno dob browser_choice headless delay debug_mode) in
  failure_shape r \/ success_shape r.
Proof.
  unfold get_result. destruct (setup_driver m browser_choice headless) as [driver|].
  - pose proof (scrape_result_terminal driver regno dob 3) as T.
    apply terminal_shape in T.
    destruct (scrape_result driver regno dob 3) as [outcome tr].
    destruct (quit driver); simpl; auto.
    left. apply failure_with_query.
  - left. apply failure_bare.
Qed.

(** C2: every result of a single-student scrape, from [scrape_result] as from
    [get_result], has exactly one of the two shapes: the key "Error" and no
    key [<code>_<idx>], or no key "Error" and at least one key
    [<code>_<idx>]. *)
Theorem exactly_one_shape_holds :
  (forall driver reg_no dob max_retries,
     exactly_one_shape (fst (fst (scrape_result driver reg_no dob max_retries)))) /\
  (forall m regno dob browser_choice headless delay debug_mode,
     exactly_one_shape
       (fst (fst (get_result m regno dob browser_choice headless delay debug_mode)))).
Proof.
  split; intros.
  - destruct (terminal_shape (scrape_result_terminal driver reg_no dob max_retries))
      as [(_ & E & N)|(_ & E & S)]; [left|right]; auto.
  - destruct (get_result_cases m regno dob browser_choice headless delay debug_mode)
      as [(_ & E & N)|(_ & E & S)]; [left|right]; auto.
Qed.

(** C9: at every return of [scrape_result] and of [get_result] the success
    flag is true if and only if the dictionary has no key "Error". *)
Theorem success_flag_agrees :
  (forall driver reg_no dob max_retries,
     flag_agrees (fst (scrape_result driver reg_no dob max_retries))) /\
  (forall m regno dob browser_choice headless delay debug_mode,
     flag_agrees (fst (get_result m regno dob browser_choice headless delay debug_mode))).
Proof.
  unfold flag_agrees. split; intros.
  - destruct (terminal_shape (scrape_result_terminal driver reg_no dob max_retries))
      as [(F & E & _)|(F & E & _)]; rewrite F, E; reflexivity.
  - destruct (get_result_cases m regno dob browser_choice headless delay debug_mode)
      as [(F & E & _)|(F & E & _)]; rewrite F, E; reflexivity.
Qed.

(** The first attempt *)

Lemma first_attempt_returns driver reg_no dob max_retries r tr :
  0 < max_retries ->
  attempt (visit driver 0) reg_no dob [] = (Return r, tr) ->
  scrape_result driver reg_no dob max_retries = (r, tr).
Proof.
  intros H A. unfold scrape_result. destruct max_retries; [lia|]. simpl. now rewrite A.
Qed.


Lemma known_error_found p :
  shows_known_error p -> exists error_msg, known_error (page_source p) = Some error_msg.
Proof.
  intros (m & Hin & Hc). unfold known_error.
  destruct (find _ error_messages) eqn:F; eauto.
  exfalso. eapply find_none in F; eauto. simpl in F. congruence.
Qed.

(** C5: when the first attempt submits the form and the page then shows a
    known error phrase, the scrape ends with the error of the site after one
    page load and one submission. *)
Theorem known_error_not_retried driver reg_no dob max_retries :
  0 < max_retries ->
  submitted (visit driver 0) reg_no dob ->
  shows_known_error (landed_page (visit driver 0)) ->
  let out := scrape_result driver reg_no dob max_retries in
  attempts (snd out) = 1 /\
  submissions (snd out) = 1 /\
  exists error_msg,
    In error_msg error_messages /\
    fst out = website_error error_msg reg_no dob.
Proof.
  intros Hpos Hs Hk. unfold submitted, locate_outcome in Hs.
  destruct (fill_and_submit_logs (visit driver 0) reg_no dob []) as (delta & E & G & P).
  destruct (fill_and_submit (visit driver 0) reg_no dob []) as [fl tr1] eqn:F.
  simpl in *. subst fl tr1.
  destruct (known_error_found Hk) as (m & Hm).
  assert (A : attempt (visit driver 0) reg_no dob []
              = (Return (website_error m reg_no dob), delta)).
  { unfold attempt, bind. rewrite F. unfold classify_and_extract. now rewrite Hm. }
  rewrite (first_attempt_returns _ _ _ Hpos A). simpl.
  repeat split; auto. exists m. split; auto. eapply known_error_listed; eauto.
Qed.

(** *** [str] and [subject_key] are injective *)

Lemma to_uint_not_nil n : Nat.to_uint n <> Decimal.Nil.
Proof.
  intros H. assert (E : n = 0) by (rewrite <- (Unsigned.of_to n), H; reflexivity).
  subst n. discriminate.
Qed.

Lemma str_inj n m : PyStr.str n = PyStr.str m -> n = m.
Proof.
  unfold PyStr.str. intros H. apply Unsigned.to_uint_inj.
  pose proof (NilZero.usu _ (to_uint_not_nil n)) as Hn.
  pose proof (NilZero.usu _ (to_uint_not_nil m)) as Hm.
  rewrite H in Hn. congruence.
Qed.

Lemma digits_no_underscore d : PyStr.has_char "_"%char (NilEmpty.string_of_uint d) = false.
Proof. induction d; simpl; auto. Qed.

Lemma str_no_underscore n : PyStr.has_char "_"%char (PyStr.str n) = false.
Proof.
  unfold PyStr.str, NilZero.string_of_uint.
  destruct (Nat.to_uint n) eqn:E; try (rewrite <- E; apply digits_no_underscore).
  reflexivity.
Qed.

(** A key splits at its last underscore. *)
Lemma split_at_last_underscore a b s t :
  PyStr.has_char "_"%char s = false -> PyStr.has_char "_"%char t = false ->
  (a ++ String "_"%char s)%string = (b ++ String "_"%char t)%string -> a = b /\ s = t.
Proof.
  intros Hs Ht. revert b. induction a as [|c a IH]; intros [|c' b] E; simpl in E.
  - now inversion E.
  - inversion E; subst. rewrite has_char_append in Hs. simpl in Hs.
    rewrite orb_true_r in Hs. discriminate.
  - inversion E; subst. rewrite has_char_append in Ht. simpl in Ht.
    rewrite orb_true_r in Ht. discriminate.
  - inversion E; subst. destruct (IH b) as [-> ->]; auto.
Qed.

Lemma subject_key_inj code i code' j :
  subject_key code i = subject_key code' j -> code = code' /\ i = j.
Proof.
  unfold subject_key. intros E.
  apply split_at_last_underscore in E; try apply str_no_underscore.
  destruct E as [-> E]. split; auto. now apply str_inj.
Qed.

(** *** The scan as a fold over the rows read *)

Lemma scan_rows_fold rows d : scan_rows d rows = fold_left scan_cells (rows_read_in rows) d.
Proof.
  revert d. induction rows as [|row rows IH]; intros d; simpl; auto.
  destruct (el_find_elements row TAG_NAME "td"); simpl; auto.
Qed.

Lemma scan_tables_fold tables d :
  scan_tables d tables = fold_left scan_cells (rows_read tables) d.
Proof.
  revert d. induction tables as [|t tables IH]; intros d; simpl; auto.
  destruct (el_find_elements t TAG_NAME "tr"); auto.
  now rewrite fold_left_app, <- scan_rows_fold.
Qed.

Lemma store_marks_nodup code marks :
  forall i d, NoDup (dict_keys d) -> NoDup (dict_keys (store_marks d code i marks)).
Proof.
  induction marks as [|m ms IH]; intros i d H; simpl; auto.
  apply IH. now apply dict_set_nodup.
Qed.

Lemma scan_cells_nodup d cells : NoDup (dict_keys d) -> NoDup (dict_keys (scan_cells d cells)).
Proof.
  intros H. unfold scan_cells.
  destruct (3 <=? length cells); auto.
  destruct cells as [|c0 cells]; auto.
  destruct (PyStr.truthy (PyStr.strip (el_text c0)) && _); auto.
  destruct (PyStr.truthy (PyStr.strip (el_text c0))); auto.
  now apply store_marks_nodup.
Qed.

Lemma scan_fold_nodup rows : forall d,
  NoDup (dict_keys d) -> NoDup (dict_keys (fold_left scan_cells rows d)).
Proof.
  induction rows as [|r rows IH]; intros d H; simpl; auto.
  apply IH. now apply scan_cells_nodup.
Qed.

(** What [store_marks] leaves under a key of the same code. *)
Lemma store_marks_get code marks : forall j d i,
  dict_get (store_marks d code j marks) (subject_key code i) =
  match (if j <=? i then nth_error marks (i - j) else None) with
  | Some mark => Some mark
  | None => dict_get d (subject_key code i)
  end.
Proof.
  induction marks as [|m ms IH]; intros j d i; simpl.
  - destruct (j <=? i); [destruct (i - j)|]; reflexivity.
  - rewrite IH, dict_get_set.
    destruct (Nat.leb_spec (S j) i) as [L|L].
    + destruct (Nat.leb_spec j i) as [L'|L']; [|lia].
      replace (i - j) with (S (i - S j)) by lia. simpl.
      destruct (nth_error ms (i - S j)); auto.
      destruct (String.eqb_spec (subject_key code i) (subject_key code j)) as [E|N]; auto.
      apply subject_key_inj in E. lia.
    + destruct (Nat.leb_spec j i) as [L'|L'].
      * assert (i = j) by lia. subst i. rewrite Nat.sub_diag, String.eqb_refl. reflexivity.
      * destruct (String.eqb_spec (subject_key code i) (subject_key code j)) as [E|N]; auto.
        apply subject_key_inj in E. lia.
Qed.

Lemma store_marks_other code code' marks : code <> code' -> forall j d i,
  dict_get (store_marks d code j marks) (subject_key code' i) = dict_get d (subject_key code' i).
Proof.
  intros N. induction marks as [|m ms IH]; intros j d i; simpl; auto.
  rewrite IH, dict_get_set.
  destruct (String.eqb_spec (subject_key code' i) (subject_key code j)) as [E|]; auto.
  apply subject_key_inj in E. destruct E; congruence.
Qed.

Lemma truthy_nonempty s : PyStr.truthy s = true <-> s <> "".
Proof. destruct s; simpl; split; congruence. Qed.

(** [scan_cells] against [qualifying]. *)
Lemma scan_cells_qualifying d cells code marks :
  qualifying cells code marks -> scan_cells d cells = store_marks d code 0 marks.
Proof.
  intros (L & (c0 & rest & -> & ->) & Hne & Hlen & ->). unfold scan_cells.
  apply Nat.leb_le in L. rewrite L.
  apply truthy_nonempty in Hne. rewrite Hne. simpl.
  apply Nat.leb_le in Hlen. unfold PyStr.len in *. rewrite Hlen. reflexivity.
Qed.

Lemma scan_cells_cases d cells :
  (exists code marks, qualifying cells code marks) \/
  (scan_cells d cells = d /\ forall code marks, ~ qualifying cells code marks).
Proof.
  unfold scan_cells.
  destruct (Nat.leb_spec 3 (length cells)) as [L|L].
  - destruct cells as [|c0 rest]; [simpl in L; lia|].
    destruct (PyStr.truthy (PyStr.strip (el_text c0))) eqn:T; simpl.
    + destruct (Nat.leb_spec (PyStr.len (PyStr.strip (el_text c0))) 15) as [L15|L15].
      * left. eexists _, _. split; [exact L|]. split; [eauto|].
        split; [now apply truthy_nonempty|]. split; [exact L15|reflexivity].
      * right. split; auto. intros code marks (_ & (c & r & E & ->) & _ & Hl & _).
        inversion E; subst. lia.
    + right. split; auto. intros code marks (_ & (c & r & E & ->) & Hne & _).
      inversion E; subst. apply truthy_nonempty in Hne. congruence.
  - right. split; auto. intros code marks (L' & _). lia.
Qed.

Lemma qualifying_functional cells code marks code' marks' :
  qualifying cells code marks -> qualifying cells code' marks' ->
  code = code' /\ marks = marks'.
Proof.
  intros (_ & (c & r & E & ->) & _ & _ & ->) (_ & (c' & r' & E' & ->) & _ & _ & ->).
  rewrite E in E'. inversion E'; subst. auto.
Qed.

(** Rows that do not write position [i] of [code] leave its value. *)
Lemma later_rows_keep code i rows : forall d,
  (forall r marks, In r rows -> qualifying r code marks -> length marks <= i) ->
  dict_get (fold_left scan_cells rows d) (subject_key code i) = dict_get d (subject_key code i).
Proof.
  induction rows as [|r rows IH]; intros d H; simpl; auto.
  rewrite IH by (intros; eapply H; eauto; now right).
  destruct (scan_cells_cases d r) as [(code' & marks' & Q)|[-> _]]; auto.
  rewrite (scan_cells_qualifying d Q).
  destruct (String.eqb_spec code' code) as [->|N].
  - rewrite store_marks_get. simpl. rewrite Nat.sub_0_r.
    assert (Hl : length marks' <= i) by (eapply H; eauto; now left).
    apply nth_error_None in Hl. now rewrite Hl.
  - now apply store_marks_other.
Qed.

Lemma last_row_wins rows before r1 between r2 after code marks1 marks2 i mark d :
  rows = before ++ r1 :: between ++ r2 :: after ->
  qualifying r1 code marks1 -> qualifying r2 code marks2 ->
  nth_error marks2 i = Some mark ->
  (forall r marks, In r after -> qualifying r code marks -> length marks <= i) ->
  dict_get (fold_left scan_cells rows d) (subject_key code i) = Some mark.
Proof.
  intros -> Q1 Q2 Hn Hafter.
  rewrite fold_left_app. simpl. rewrite fold_left_app. simpl.
  rewrite later_rows_keep by assumption.
  rewrite (scan_cells_qualifying _ Q2), store_marks_get. simpl.
  now rewrite Nat.sub_0_r, Hn.
Qed.

Lemma base_results_nodup reg_no dob name : NoDup (dict_keys (base_results reg_no dob name)).
Proof.
  simpl. repeat constructor; simpl; intuition discriminate.
Qed.

(** C10: a successful result has one value per key, and where two qualifying
    rows of the page share a subject code, the value under [<code>_<i>] is the
    mark at position [i] of the last such row that has that position. *)
Theorem later_row_overwrites driver reg_no dob max_retries results tr :
  scrape_result driver reg_no dob max_retries = (results, true, tr) ->
  NoDup (dict_keys results) /\
  exists n tables,
    n < max_retries /\
    find_elements (landed_page (visit driver n)) TAG_NAME "table" = Ok tables /\
    forall before r1 between r2 after code marks1 marks2 i mark,
      rows_read tables = before ++ r1 :: between ++ r2 :: after ->
      qualifying r1 code marks1 -> qualifying r2 code marks2 ->
      nth_error marks2 i = Some mark ->
      (forall r marks, In r after -> qualifying r code marks -> List.length marks <= i) ->
      dict_get results (subject_key code i) = Some mark.
Proof.
  intros H. pose proof (scrape_result_terminal driver reg_no dob max_retries) as T.
  rewrite H in T. simpl in T.
  inversion T as [r [E | [E | E]] | m Hm | n tables Hn Ht Hne | | e | ]; subst;
    try discriminate.
  assert (ND : NoDup (dict_keys (scan_tables [] tables))).
  { rewrite scan_tables_fold. apply scan_fold_nodup. constructor. }
  split.
  - apply dict_update_nodup, base_results_nodup.
  - exists n, tables. repeat split; auto.
    intros before r1 between r2 after code marks1 marks2 i mark Hrows Q1 Q2 Hnth Hafter.
    rewrite dict_update_get by assumption.
    rewrite scan_tables_fold.
    pose proof (@last_row_wins _ before r1 between r2 after code marks1 marks2 i mark []
                  Hrows Q1 Q2 Hnth Hafter) as W.
    now rewrite W.
Qed.

(** *** [sorted] *)

Section Sorting.
Variable A : Type.
Variable leb : A -> A -> bool.
Hypothesis leb_total : forall a b, leb a b = true \/ leb b a = true.
Hypothesis leb_antisym : forall a b, leb a b = true -> leb b a = true -> a = b.
Hypothesis leb_trans : forall a b c, leb a b = true -> leb b c = true -> leb a c = true.

Lemma insert_sorted_perm x l : Permutation (insert_sorted leb x l) (x :: l).
Proof.
  induction l as [|y l IH]; simpl; auto.
  destruct (leb x y); auto.
  rewrite IH. apply perm_swap.
Qed.

Lemma sorted_perm l : Permutation (sorted leb l) l.
Proof.
  induction l as [|x l IH]; simpl; auto.
  rewrite insert_sorted_perm. now constructor.
Qed.

Lemma insert_sorted_ordered x l :
  StronglySorted (holds leb) l -> StronglySorted (holds leb) (insert_sorted leb x l).
Proof.
  induction 1 as [|y l Hs IH Hy]; simpl.
  - repeat constructor.
  - destruct (leb x y) eqn:E.
    + constructor; [now constructor|].
      constructor; auto.
      eapply Forall_impl; [|exact Hy]. intros z Hz. eapply leb_trans; eauto.
    + constructor; auto.
      assert (Hyx : holds leb y x).
      { unfold holds. destruct (leb_total x y); [congruence|assumption]. }
      eapply Permutation_Forall; [symmetry; apply insert_sorted_perm|].
      constructor; auto.
Qed.

Lemma sorted_ordered l : StronglySorted (holds leb) (sorted leb l).
Proof.
  induction l as [|x l IH]; simpl; [constructor|]. now apply insert_sorted_ordered.
Qed.

(** Two ordered arrangements of the same elements are the same list. *)
Lemma ordered_unique l1 : forall l2,
  StronglySorted (holds leb) l1 -> StronglySorted (holds leb) l2 ->
  Permutation l1 l2 -> l1 = l2.
Proof.
  induction l1 as [|a l1 IH]; intros l2 S1 S2 P.
  - apply Permutation_nil in P. now subst.
  - destruct l2 as [|b l2]; [apply Permutation_sym, Permutation_nil in P; discriminate|].
    inversion S1 as [|? ? S1' F1]; subst. inversion S2 as [|? ? S2' F2]; subst.
    assert (a = b).
    { assert (Ia : In a (b :: l2)) by (eapply Permutation_in; eauto; now left).
      assert (Ib : In b (a :: l1)) by (eapply Permutation_in; [symmetry|]; eauto; now left).
      destruct Ia as [->|Ia]; auto. destruct Ib as [->|Ib]; auto.
      rewrite Forall_forall in F1, F2. apply leb_antisym; [apply F1|apply F2]; auto. }
    subst b. f_equal. apply IH; auto. eapply Permutation_cons_inv; eauto.
Qed.

(** [sorted] does not see the order of its argument. *)
Lemma sorted_of_permutation l1 l2 : Permutation l1 l2 -> sorted leb l1 = sorted leb l2.
Proof.
  intros P. apply ordered_unique; try apply sorted_ordered.
  rewrite !sorted_perm. exact P.
Qed.

End Sorting.

(** The two orders used by the export. *)

Lemma ascii_compare_trans a b c :
  Ascii.compare a b = Lt -> Ascii.compare b c = Lt -> Ascii.compare a c = Lt.
Proof.
  unfold Ascii.compare. rewrite !N.compare_lt_iff. apply N.lt_trans.
Qed.

Lemma string_compare_trans a : forall b c,
  String.compare a b = Lt -> String.compare b c = Lt -> String.compare a c = Lt.
Proof.
  induction a as [|x a IH]; intros [|y b] [|z c]; simpl; try congruence.
  destruct (Ascii.compare x y) eqn:Exy; try discriminate;
    destruct (Ascii.compare y z) eqn:Eyz; try discriminate; intros H1 H2.
  - apply Ascii.compare_eq_iff in Exy, Eyz. subst.
    replace (Ascii.compare z z) with Eq
      by (symmetry; unfold Ascii.compare; apply N.compare_refl).
    eauto.
  - apply Ascii.compare_eq_iff in Exy. subst. now rewrite Eyz.
  - apply Ascii.compare_eq_iff in Eyz. subst. now rewrite Exy.
  - now rewrite (ascii_compare_trans _ _ _ Exy Eyz).
Qed.

Lemma string_leb_trans a b c :
  String.leb a b = true -> String.leb b c = true -> String.leb a c = true.
Proof.
  unfold String.leb.
  destruct (String.compare a b) eqn:Eab; try discriminate;
    destruct (String.compare b c) eqn:Ebc; try discriminate; intros _ _.
  - apply String.compare_eq_iff in Eab. subst. now rewrite Ebc.
  - apply String.compare_eq_iff in Eab. subst. now rewrite Ebc.
  - apply String.compare_eq_iff in Ebc. subst. now rewrite Eab.
  - now rewrite (string_compare_trans _ _ _ Eab Ebc).
Qed.

Lemma nat_leb_total a b : (a <=? b) = true \/ (b <=? a) = true.
Proof. rewrite !Nat.leb_le. lia. Qed.
Lemma nat_leb_antisym a b : (a <=? b) = true -> (b <=? a) = true -> a = b.
Proof. rewrite !Nat.leb_le. lia. Qed.
Lemma nat_leb_trans a b c : (a <=? b) = true -> (b <=? c) = true -> (a <=? c) = true.
Proof. rewrite !Nat.leb_le. lia. Qed.

Lemma sorted_codes_fair (order : set_order) s :
  fair order -> sorted String.leb (order string s) = sorted String.leb s.
Proof.
  intros F. apply sorted_of_permutation.
  - apply String.leb_total.
  - apply String.leb_antisym.
  - apply string_leb_trans.
  - apply F.
Qed.

Lemma sorted_positions_fair (order : set_order) s :
  fair order -> sorted Nat.leb (order nat s) = sorted Nat.leb s.
Proof.
  intros F. apply sorted_of_permutation.
  - apply nat_leb_total.
  - apply nat_leb_antisym.
  - apply nat_leb_trans.
  - apply F.
Qed.

Lemma fold_left_pointwise A B (f g : A -> B -> A) l : forall a,
  (forall a b, f a b = g a b) -> fold_left f l a = fold_left g l a.
Proof.
  induction l as [|x l IH]; intros a H; simpl; auto. rewrite H. now apply IH.
Qed.

Lemma student_row_of_fair (order : set_order) reg codes result :
  fair order ->
  student_row_of order reg codes result
  = student_row_of Fake.insertion_order reg codes result.
Proof.
  intros F. unfold student_row_of. apply fold_left_pointwise.
  intros row code. now rewrite sorted_positions_fair.
Qed.

Lemma process_results_fair (order : set_order) all_results :
  fair order ->
  process_results_for_export order all_results
  = process_results_for_export Fake.insertion_order all_results.
Proof.
  intros F. unfold process_results_for_export.
  destruct (filter (fun r => negb (is_failed r)) all_results) as [|r rs]; auto.
  rewrite sorted_codes_fair by assumption.
  f_equal. f_equal. apply map_ext. intros a. now apply student_row_of_fair.
Qed.

(** C8: two runs of the normalizer on the same result list give the same two
    tables, whatever order each run iterates its sets in. *)
Theorem normalizer_deterministic (order1 order2 : set_order) all_results :
  fair order1 -> fair order2 ->
  process_results_for_export order1 all_results
  = process_results_for_export order2 all_results.
Proof.
  intros F1 F2. now rewrite (process_results_fair all_results F1), (process_results_fair all_results F2).
Qed.

(** *** The registry of the first pass *)

Lemma observed_all_keys rs code p :
  observed rs code p <-> exists key, In key (all_keys rs) /\ key_observes key code p.
Proof.
  unfold observed, all_keys, key_observes. split.
  - intros (r & key & digits & Hr & Hk & Hp & Hi). exists key. split; eauto.
    apply in_flat_map. eauto.
  - intros (key & Hk & digits & Hp & Hi). apply in_flat_map in Hk.
    destruct Hk as (r & Hr & Hk). exists r, key, digits. auto.
Qed.

Lemma first_pass_flat rs :
  first_pass rs = fold_left register_key (all_keys rs) (mkRegistry [] []).
Proof.
  unfold first_pass, all_keys. generalize (mkRegistry [] []).
  induction rs as [|r rs IH]; intros reg; simpl; auto.
  now rewrite fold_left_app, IH.
Qed.

Lemma positions_get_set m code ps code' :
  positions_get (positions_set m code ps) code' =
  if String.eqb code' code then Some ps else positions_get m code'.
Proof.
  induction m as [|[c0 ps0] m IH]; simpl; auto.
  destruct (String.eqb_spec code c0) as [->|N]; simpl.
  - destruct (String.eqb code' c0); reflexivity.
  - rewrite IH. destruct (String.eqb_spec code' c0) as [->|N']; auto.
    destruct (String.eqb_spec c0 code); congruence.
Qed.

Section SetAdd.
Variable A : Type.
Variable eqb : A -> A -> bool.
Hypothesis eqb_eq : forall a b, eqb a b = true <-> a = b.

Lemma set_add_in x s y : In y (set_add eqb x s) <-> y = x \/ In y s.
Proof.
  unfold set_add. destruct (existsb (eqb x) s) eqn:E.
  - apply existsb_exists in E. destruct E as (z & Hz & Ez). apply eqb_eq in Ez. subst z.
    split; auto. intros [->|]; auto.
  - rewrite in_app_iff. simpl. intuition.
Qed.

Lemma set_add_nodup x s : NoDup s -> NoDup (set_add eqb x s).
Proof.
  intros H. unfold set_add. destruct (existsb (eqb x) s) eqn:E; auto.
  apply NoDup_app; auto.
  - constructor; [intros []|constructor].
  - intros y Hy [<-|[]].
    assert (existsb (eqb x) s = true); [|congruence].
    apply existsb_exists. exists x. split; auto. now apply eqb_eq.
Qed.

Lemma set_add_nonempty x s : set_add eqb x s <> [].
Proof.
  intros H. assert (I : In x (set_add eqb x s)) by (apply set_add_in; auto).
  rewrite H in I. destruct I.
Qed.
End SetAdd.

Lemma reg_inv_empty : reg_inv [] (mkRegistry [] []).
Proof.
  constructor; simpl.
  - constructor.
  - intros code. split; [intros []|congruence].
  - intros code ps [=].
  - intros key code p [].
Qed.

Lemma reg_inv_step seen reg key :
  reg_inv seen reg -> reg_inv (seen ++ [key]) (register_key reg key).
Proof.
  intros [ND HC HP HK]. unfold register_key.
  destruct (subject_code_pattern key) as [[code digits]|] eqn:Pat.
  - set (seen_ps := match positions_get (all_subject_positions reg) code with
                    | Some ps => ps | None => [] end).
    constructor; simpl.
    + apply set_add_nodup; auto. apply String.eqb_eq.
    + intros c. rewrite set_add_in by apply String.eqb_eq.
      rewrite positions_get_set. destruct (String.eqb_spec c code) as [->|N].
      * split; [congruence|auto].
      * rewrite HC. intuition.
    + intros c ps. rewrite positions_get_set.
      destruct (String.eqb_spec c code) as [->|N].
      * intros [= <-]. split; [|split].
        -- apply set_add_nodup; [apply Nat.eqb_eq|].
           unfold seen_ps. destruct (positions_get _ code) eqn:G; [|constructor].
           now apply HP in G.
        -- apply set_add_nonempty. apply Nat.eqb_eq.
        -- intros p. rewrite set_add_in by apply Nat.eqb_eq. split.
           ++ intros [->|Hp].
              ** exists key. split; [apply in_app_iff; right; now left|].
                 now exists digits.
              ** unfold seen_ps in Hp. destruct (positions_get _ code) eqn:G; [|destruct Hp].
                 apply HP in G. destruct G as (_ & _ & G). apply G in Hp.
                 destruct Hp as (k & Hk & Ho). exists k. split; auto.
                 apply in_app_iff; auto.
           ++ intros (k & Hk & Ho). apply in_app_iff in Hk. destruct Hk as [Hk|[<-|[]]].
              ** right. unfold seen_ps.
                 destruct (positions_get _ code) eqn:G.
                 --- apply HP in G. destruct G as (_ & _ & G). apply G. eauto.
                 --- exfalso. eapply HK; eauto.
              ** left. destruct Ho as (d & Hd & <-). rewrite Pat in Hd. now inversion Hd.
      * intros G. destruct (HP _ _ G) as (N1 & N2 & N3). split; [|split]; auto.
        intros p. rewrite N3. split; intros (k & Hk & Ho).
        -- exists k. split; auto. apply in_app_iff; auto.
        -- apply in_app_iff in Hk. destruct Hk as [Hk|[<-|[]]]; eauto.
           destruct Ho as (d & Hd & _). rewrite Pat in Hd. inversion Hd. congruence.
    + intros k c p Hk Ho. rewrite positions_get_set.
      destruct (String.eqb_spec c code) as [->|N]; [congruence|].
      apply in_app_iff in Hk. destruct Hk as [Hk|[<-|[]]]; eauto.
      destruct Ho as (d & Hd & _). rewrite Pat in Hd. inversion Hd. congruence.
  - constructor; auto.
    + intros c ps G. destruct (HP _ _ G) as (N1 & N2 & N3). split; [|split]; auto.
      intros p. rewrite N3. split; intros (k & Hk & Ho).
      * exists k. split; auto. apply in_app_iff; auto.
      * apply in_app_iff in Hk. destruct Hk as [Hk|[<-|[]]]; eauto.
        destruct Ho as (d & Hd & _). congruence.
    + intros k c p Hk Ho. apply in_app_iff in Hk. destruct Hk as [Hk|[<-|[]]]; eauto.
      destruct Ho as (d & Hd & _). congruence.
Qed.

Lemma reg_inv_fold keys : forall seen reg,
  reg_inv seen reg -> reg_inv (seen ++ keys) (fold_left register_key keys reg).
Proof.
  induction keys as [|k keys IH]; intros seen reg H; simpl.
  - now rewrite app_nil_r.
  - replace (seen ++ k :: keys) with ((seen ++ [k]) ++ keys) by (now rewrite <- app_assoc).
    apply IH. now apply reg_inv_step.
Qed.

Lemma first_pass_inv rs : reg_inv (all_keys rs) (first_pass rs).
Proof. rewrite first_pass_flat. apply (reg_inv_fold (all_keys rs) reg_inv_empty). Qed.

(** *** Codes matched by the pattern *)

Lemma span_all p s : PyStr.all_chars p (fst (span p s)) = true.
Proof.
  induction s as [|c s IH]; simpl; auto.
  destruct (p c) eqn:E; simpl; auto.
  destruct (span p s); simpl in *. now rewrite E.
Qed.

Lemma pattern_code_alnum key code digits :
  subject_code_pattern key = Some (code, digits) -> alnum code.
Proof.
  unfold subject_code_pattern, alnum.
  pose proof (span_all PyStr.is_alnum_char key) as S.
  destruct (span PyStr.is_alnum_char key) as [c rest]; simpl in S.
  destruct c as [|a c]; [discriminate|]. destruct rest as [|sep rest]; [discriminate|].
  destruct (Ascii.eqb sep "_"); [|discriminate].
  destruct (span PyStr.is_digit_char rest) as [ds tail].
  destruct ds; [discriminate|].
  destruct (_ || _); [|discriminate]. now intros [= <- _].
Qed.

Lemma alnum_char_not_underscore c :
  PyStr.is_alnum_char c = true -> Ascii.eqb "_" c = false.
Proof.
  intros H. destruct (Ascii.eqb_spec "_" c) as [<-|]; [|reflexivity].
  vm_compute in H. discriminate.
Qed.

Lemma alnum_no_underscore code : alnum code -> PyStr.has_char "_"%char code = false.
Proof.
  unfold alnum. induction code as [|c code IH]; cbn [PyStr.has_char PyStr.all_chars]; auto.
  intros H. apply andb_true_iff in H. destruct H as [Hc H].
  now rewrite (alnum_char_not_underscore _ Hc), IH.
Qed.

Lemma alnum_not_subject_key code code' p : alnum code -> code <> subject_key code' p.
Proof.
  intros H E. apply alnum_no_underscore in H.
  rewrite E, subject_key_underscore in H. discriminate.
Qed.

(** *** Names of the registry columns *)

Lemma layout_cells_keys result layout :
  dict_keys (layout_cells result layout) = registry_columns layout.
Proof.
  unfold layout_cells, registry_columns, dict_keys.
  induction layout as [|cp layout IH]; simpl; auto.
  rewrite map_app, IH. f_equal. unfold entry_cells. rewrite map_map. reflexivity.
Qed.

(** A column of an entry is the code, for a single position, or a suffixed
    name. *)
Lemma entry_column_cases code ps col :
  In col (map (column_name code ps) ps) ->
  (exists p, ps = [p] /\ col = code) \/
  (exists p, In p ps /\ col = subject_key code p).
Proof.
  intros H. apply in_map_iff in H. destruct H as (p & <- & Hp).
  destruct ps as [|q [|q' ps]].
  - destruct Hp.
  - left. exists q. auto.
  - right. exists p. auto.
Qed.

Lemma registry_column_cases layout col :
  In col (registry_columns layout) ->
  exists code ps, In (code, ps) layout /\
    ((exists p, ps = [p] /\ col = code) \/
     (exists p, In p ps /\ col = subject_key code p)).
Proof.
  unfold registry_columns. intros H. apply in_flat_map in H.
  destruct H as ([code ps] & Hin & Hc). exists code, ps. split; auto.
  now apply entry_column_cases.
Qed.

Lemma entry_columns_nodup code ps :
  NoDup ps -> NoDup (map (column_name code ps) ps).
Proof.
  intros H. destruct ps as [|q [|q' ps]].
  - constructor.
  - simpl. repeat constructor. intros [].
  - change (NoDup (map (subject_key code) (q :: q' :: ps))).
    apply Finite.Injective_map_NoDup; auto.
    intros a b E. now apply subject_key_inj in E.
Qed.

Lemma registry_columns_nodup layout :
  NoDup (map fst layout) -> Forall good_entry layout -> NoDup (registry_columns layout).
Proof.
  induction layout as [|[code ps] layout IH]; intros ND G; simpl.
  - constructor.
  - inversion ND as [|? ? Hn ND']; subst. inversion G as [|? ? [Ha Hps] G']; subst.
    simpl in *. apply NoDup_app.
    + now apply entry_columns_nodup.
    + now apply IH.
    + intros col H1 H2. apply entry_column_cases in H1.
      apply registry_column_cases in H2. destruct H2 as (code' & ps' & Hin & H2).
      assert (code' <> code).
      { intros ->. apply Hn. apply in_map_iff. now exists (code, ps'). }
      assert (Ha' : alnum code').
      { rewrite Forall_forall in G'. now apply (G' (code', ps')). }
      destruct H1 as [(p & _ & ->)|(p & _ & ->)];
        destruct H2 as [(p' & _ & E)|(p' & _ & E)].
      * congruence.
      * now apply alnum_not_subject_key in E.
      * symmetry in E. now apply alnum_not_subject_key in E.
      * apply subject_key_inj in E. destruct E. congruence.
Qed.

(** *** Rows as lists of cells *)

Lemma dict_update_app d a b : dict_update d (a ++ b) = dict_update (dict_update d a) b.
Proof. unfold dict_update. apply fold_left_app. Qed.

Lemma dict_set_fresh d k v : ~ In k (dict_keys d) -> dict_set d k v = d ++ [(k, v)].
Proof.
  induction d as [|[k0 v0] d IH]; simpl; intros H; auto.
  destruct (String.eqb_spec k k0) as [->|N]; [tauto|]. rewrite IH; auto.
Qed.

Lemma dict_update_fresh other : forall d,
  NoDup (dict_keys d ++ dict_keys other) -> dict_update d other = d ++ other.
Proof.
  induction other as [|[k v] other IH]; intros d H; simpl.
  - now rewrite app_nil_r.
  - change (dict_update (dict_set d k v) other = d ++ (k, v) :: other).
    assert (Hk : ~ In k (dict_keys d)).
    { simpl in H. apply NoDup_remove_2 in H. rewrite in_app_iff in H. tauto. }
    rewrite (@dict_set_fresh d k v Hk), IH.
    + now rewrite <- app_assoc.
    + unfold dict_keys in *. rewrite map_app, <- app_assoc. exact H.
Qed.

Lemma fold_left_over_map A B C (f : A -> B -> A) (g : C -> B) l : forall a,
  fold_left f (map g l) a = fold_left (fun a x => f a (g x)) l a.
Proof. induction l as [|x l IH]; intros a; simpl; auto. Qed.

Lemma fill_positions_cells result code ps row :
  fill_positions result code ps row = dict_update row (entry_cells result (code, ps)).
Proof.
  unfold fill_positions, dict_update, entry_cells. simpl.
  rewrite fold_left_over_map.
  destruct ps as [|q ps]; [reflexivity|].
  apply fold_left_pointwise. intros a p. cbv beta. cbn [fst snd].
  assert (E : (if 1 <? length (q :: ps) then subject_key code p else code)
              = column_name code (q :: ps) p) by (destruct ps; reflexivity).
  rewrite E. unfold dict_get_default. destruct (dict_get result _); reflexivity.
Qed.

Lemma student_row_cells order reg codes r :
  student_row_of order reg codes r
  = dict_update (leading_row r) (layout_cells r (layout_for order reg codes)).
Proof.
  unfold student_row_of. fold (leading_row r). generalize (leading_row r).
  induction codes as [|c codes IH]; intros row; simpl; auto.
  rewrite IH, fill_positions_cells. unfold layout_cells. simpl.
  now rewrite dict_update_app.
Qed.

(** *** Frames of rows with the same keys *)

Lemma add_column_known cols k : In k cols -> add_column cols k = cols.
Proof.
  intros H. unfold add_column.
  assert (E : existsb (String.eqb k) cols = true).
  { apply existsb_exists. exists k. split; auto. apply String.eqb_refl. }
  now rewrite E.
Qed.

Lemma add_column_new cols k : ~ In k cols -> add_column cols k = cols ++ [k].
Proof.
  intros H. unfold add_column.
  destruct (existsb (String.eqb k) cols) eqn:E; auto.
  apply existsb_exists in E. destruct E as (x & Hx & E). apply String.eqb_eq in E.
  subst. tauto.
Qed.

Lemma add_columns_known K : forall cols, incl K cols -> fold_left add_column K cols = cols.
Proof.
  induction K as [|k K IH]; intros cols H; simpl; auto.
  rewrite add_column_known by (apply H; now left).
  apply IH. intros x Hx. apply H. now right.
Qed.

Lemma add_columns_new K : forall cols,
  NoDup (cols ++ K) -> fold_left add_column K cols = cols ++ K.
Proof.
  induction K as [|k K IH]; intros cols H; simpl.
  - now rewrite app_nil_r.
  - rewrite add_column_new.
    + rewrite IH; rewrite <- app_assoc; auto.
    + apply NoDup_remove_2 in H. rewrite in_app_iff in H. tauto.
Qed.

Lemma union_columns_known records : forall cols,
  Forall (fun r => incl (dict_keys r) cols) records ->
  fold_left (fun cols r => fold_left add_column (dict_keys r) cols) records cols = cols.
Proof.
  induction records as [|r records IH]; intros cols F; simpl; auto.
  inversion F; subst. rewrite add_columns_known by assumption. now apply IH.
Qed.

Lemma union_columns_uniform records K :
  records <> [] -> NoDup K -> Forall (fun r => dict_keys r = K) records ->
  union_columns records = K.
Proof.
  intros Hne ND F. destruct records as [|r records]; [congruence|].
  inversion F as [|? ? Hr F']; subst. unfold union_columns. simpl.
  rewrite (add_columns_new (dict_keys r) []) by exact ND. simpl.
  apply union_columns_known.
  eapply Forall_impl; [|exact F']. intros r' ->. apply incl_refl.
Qed.

Lemma find_in_paired (f : string -> option string) c K :
  In c K ->
  find (fun kc => String.eqb c (fst kc)) (combine K (map f K)) = Some (c, f c).
Proof.
  induction K as [|k K IH]; intros H; simpl; [destruct H|].
  destruct (String.eqb_spec c k) as [->|N]; auto.
  destruct H as [->|H]; [congruence|auto].
Qed.

Lemma dict_get_in d k v : NoDup (dict_keys d) -> In (k, v) d -> dict_get d k = Some v.
Proof.
  induction d as [|[k0 v0] d IH]; simpl; intros ND H; [destruct H|].
  inversion ND as [|? ? Hn ND']; subst.
  destruct H as [[= -> ->]|H].
  - now rewrite String.eqb_refl.
  - destruct (String.eqb_spec k k0) as [->|N]; auto.
    exfalso. apply Hn. apply in_map_iff. now exists (k0, v).
Qed.

Lemma cell_of_record records i r c v :
  nth_error records i = Some r ->
  NoDup (dict_keys r) -> In (c, v) r -> In c (union_columns records) ->
  cell (frame_of_records records) i c = Some (Some v).
Proof.
  intros Hi ND Hin Hc. unfold cell, frame_of_records. simpl.
  rewrite nth_error_map, Hi. simpl.
  rewrite (@find_in_paired (dict_get r) c _ Hc).
  now rewrite (@dict_get_in r c v ND Hin).
Qed.

(** *** Strictly increasing lists *)

Lemma strict_of_ordered A (le lt : A -> A -> Prop) l :
  (forall a b, le a b -> a <> b -> lt a b) ->
  StronglySorted le l -> NoDup l -> StronglySorted lt l.
Proof.
  intros Hlt S. induction S as [|a l S IH Fa]; intros ND; constructor.
  - apply IH. now inversion ND.
  - inversion ND as [|? ? Hn _]; subst. rewrite Forall_forall in *.
    intros x Hx. apply Hlt; auto. intros ->. contradiction.
Qed.

Lemma string_ltb_of_leb a b : String.leb a b = true -> a <> b -> string_lt a b.
Proof.
  unfold string_lt, String.leb, String.ltb.
  destruct (String.compare a b) eqn:E; auto; try discriminate.
  apply String.compare_eq_iff in E. congruence.
Qed.

Lemma sorted_codes_strict l :
  NoDup l -> StronglySorted string_lt (sorted String.leb l).
Proof.
  intros ND. apply strict_of_ordered with (le := holds String.leb).
  - apply string_ltb_of_leb.
  - apply sorted_ordered; [apply String.leb_total | apply string_leb_trans].
  - eapply Permutation_NoDup; [symmetry; apply sorted_perm|exact ND].
Qed.

Lemma sorted_positions_strict l :
  NoDup l -> StronglySorted lt (sorted Nat.leb l).
Proof.
  intros ND. apply strict_of_ordered with (le := holds Nat.leb).
  - intros a b H N. apply Nat.leb_le in H. lia.
  - apply sorted_ordered; [apply nat_leb_total | apply nat_leb_trans].
  - eapply Permutation_NoDup; [symmetry; apply sorted_perm|exact ND].
Qed.

Lemma filter_all A (f : A -> bool) l : Forall (fun x => f x = true) l -> filter f l = l.
Proof.
  induction 1 as [|x l Hx _ IH]; simpl; auto. now rewrite Hx, IH.
Qed.

Lemma layout_for_codes order reg codes : map fst (layout_for order reg codes) = codes.
Proof. unfold layout_for. rewrite map_map. simpl. apply map_id. Qed.

Lemma in_layout_for order reg codes c ps :
  In (c, ps) (layout_for order reg codes) <->
  In c codes /\ ps = sorted Nat.leb (order nat (positions_of reg c)).
Proof.
  unfold layout_for. rewrite in_map_iff. split.
  - intros (x & [= -> <-] & Hx). auto.
  - intros (Hc & ->). exists c. auto.
Qed.

Lemma same_entry (layout : list (string * list nat)) c a b :
  NoDup (map fst layout) -> In (c, a) layout -> In (c, b) layout -> a = b.
Proof.
  induction layout as [|[c0 ps0] layout IH]; simpl; intros ND Ha Hb; [destruct Ha|].
  inversion ND as [|? ? Hn ND']; subst.
  destruct Ha as [Ha|Ha]; destruct Hb as [Hb|Hb]; auto.
  - congruence.
  - exfalso. inversion Ha; subst. apply Hn. apply in_map_iff. now exists (c, b).
  - exfalso. inversion Hb; subst. apply Hn. apply in_map_iff. now exists (c, a).
Qed.

Section FirstPass.
Variable order : set_order.
Hypothesis order_fair : fair order.
Variable rs : list dict.

Lemma codes_perm : Permutation (export_codes order rs) (all_subject_codes (first_pass rs)).
Proof. unfold export_codes. rewrite sorted_perm. apply order_fair. Qed.

Lemma codes_nodup : NoDup (export_codes order rs).
Proof.
  eapply Permutation_NoDup; [symmetry; apply codes_perm|].
  apply (inv_nodup (first_pass_inv rs)).
Qed.

Lemma code_positions c :
  In c (export_codes order rs) ->
  exists ps, positions_get (all_subject_positions (first_pass rs)) c = Some ps /\
    NoDup ps /\ ps <> [] /\
    (forall p, In p ps <-> observed rs c p) /\
    Permutation (sorted Nat.leb (@order nat (positions_of (first_pass rs) c))) ps.
Proof.
  intros Hc. apply (Permutation_in _ codes_perm) in Hc.
  apply (inv_codes (first_pass_inv rs)) in Hc.
  destruct (positions_get (all_subject_positions (first_pass rs)) c) as [ps|] eqn:G; [|congruence].
  destruct (inv_positions (first_pass_inv rs) _ G) as (ND & Hne & Hp).
  exists ps. repeat split; auto.
  - intros H. apply observed_all_keys. now apply Hp.
  - intros H. apply Hp. now apply observed_all_keys.
  - unfold positions_of. rewrite G, sorted_perm. apply order_fair.
Qed.

Lemma first_pass_layout : layout_of rs (export_layout order rs).
Proof.
  split; [|split].
  - unfold export_layout. rewrite layout_for_codes. unfold export_codes.
    apply sorted_codes_strict.
    eapply Permutation_NoDup; [symmetry; apply order_fair|].
    apply (inv_nodup (first_pass_inv rs)).
  - apply Forall_forall. intros [c ps] Hin. apply in_layout_for in Hin.
    destruct Hin as (Hc & ->). simpl.
    destruct (@code_positions c Hc) as (ps & G & ND & Hne & _ & P). split.
    + intros E. rewrite E in P. apply Permutation_nil in P. congruence.
    + apply sorted_positions_strict.
      eapply Permutation_NoDup; [symmetry; apply order_fair|].
      unfold positions_of. now rewrite G.
  - intros c p. split.
    + intros O. apply observed_all_keys in O. destruct O as (key & Hk & Ho).
      pose proof (inv_complete (first_pass_inv rs) Hk Ho) as G.
      apply (inv_codes (first_pass_inv rs)) in G.
      apply (Permutation_in _ (Permutation_sym codes_perm)) in G.
      destruct (@code_positions c G) as (ps & _ & _ & _ & Hp & P).
      exists (sorted Nat.leb (@order nat (positions_of (first_pass rs) c))). split.
      * apply in_layout_for. auto.
      * apply (Permutation_in _ (Permutation_sym P)). apply Hp.
        apply observed_all_keys. eauto.
    + intros (ps' & Hin & Hp). apply in_layout_for in Hin. destruct Hin as (Hc & ->).
      destruct (@code_positions c Hc) as (ps & _ & _ & _ & Hobs & P).
      apply Hobs. now apply (Permutation_in _ P).
Qed.

Lemma layout_good : Forall good_entry (export_layout order rs).
Proof.
  apply Forall_forall. intros [c ps'] Hin. apply in_layout_for in Hin.
  destruct Hin as (Hc & ->). destruct (@code_positions c Hc) as (ps & _ & ND & Hne & Hobs & P).
  split; simpl.
  - destruct ps as [|p ps]; [congruence|].
    assert (O : observed rs c p) by (apply Hobs; now left).
    destruct O as (r & key & digits & _ & _ & Pat & _).
    eapply pattern_code_alnum; eauto.
  - eapply Permutation_NoDup; [symmetry; exact P|exact ND].
Qed.

Lemma leading_fresh col :
  ~ single_position rs "NAME" -> ~ single_position rs "DOB" ->
  In col leading_columns -> ~ In col (registry_columns (export_layout order rs)).
Proof.
  intros HN HD Hl Hr. apply registry_column_cases in Hr.
  destruct Hr as (c & ps & Hin & [(p & -> & ->)|(p & _ & ->)]).
  - assert (Hs : single_position rs c).
    { destruct first_pass_layout as (_ & _ & Hobs). exists p. split.
      - apply Hobs. exists [p]. split; auto. now left.
      - intros q Hq. apply Hobs in Hq. destruct Hq as (ps' & Hin' & Hq).
        assert (ps' = [p]).
        { eapply same_entry; eauto. unfold export_layout. rewrite layout_for_codes.
          apply codes_nodup. }
        subst. destruct Hq as [<-|[]]. reflexivity. }
    pose proof layout_good as G. rewrite Forall_forall in G.
    destruct (G _ Hin) as (Ha & _). simpl in Ha.
    destruct Hl as [<-|[<-|[<-|[]]]]; auto.
    vm_compute in Ha. discriminate.
  - pose proof (subject_key_underscore c p) as U.
    destruct Hl as [E|[E|[E|[]]]]; rewrite <- E in U; discriminate.
Qed.

Lemma row_columns_nodup :
  ~ single_position rs "NAME" -> ~ single_position rs "DOB" ->
  NoDup (leading_columns ++ registry_columns (export_layout order rs)).
Proof.
  intros HN HD. apply NoDup_app.
  - unfold leading_columns. repeat constructor; simpl; intuition discriminate.
  - apply registry_columns_nodup; [|apply layout_good].
    unfold export_layout. rewrite layout_for_codes. apply codes_nodup.
  - intros col. now apply leading_fresh.
Qed.

Lemma student_row_layout r :
  ~ single_position rs "NAME" -> ~ single_position rs "DOB" ->
  student_row_of order (first_pass rs) (export_codes order rs) r = leading_row r ++ layout_cells r (export_layout order rs).
Proof.
  intros HN HD. rewrite student_row_cells. apply dict_update_fresh.
  rewrite layout_cells_keys. now apply row_columns_nodup.
Qed.

End FirstPass.


(** *** The batch loop *)

Lemma batch_loop_length machines bt hm ds dm queries : forall i acc,
  List.length (batch_loop machines bt hm ds dm i queries acc)
  = List.length acc + List.length queries.
Proof.
  induction queries as [|[reg_no dob] queries IH]; intros i acc; simpl.
  - lia.
  - destruct (get_result (machines i) reg_no dob bt hm ds dm) as [[result success] tr].
    rewrite IH, length_app. simpl. lia.
Qed.

Lemma batch_loop_nth machines bt hm ds dm queries : forall i acc j,
  nth_error (batch_loop machines bt hm ds dm i queries acc) j
  = if j <? List.length acc then nth_error acc j
    else option_map (result_of_query machines bt hm ds dm (i + (j - List.length acc)))
                    (nth_error queries (j - List.length acc)).
Proof.
  induction queries as [|[reg_no dob] queries IH]; intros i acc j; simpl.
  - destruct (Nat.ltb_spec j (length acc)) as [L|L]; auto.
    destruct (j - length acc); simpl; now apply nth_error_None.
  - destruct (get_result (machines i) reg_no dob bt hm ds dm) as [[result success] tr] eqn:G.
    rewrite IH, length_app. simpl.
    destruct (Nat.ltb_spec j (length acc)) as [L|L].
    + destruct (Nat.ltb_spec j (length acc + 1)) as [L'|L']; [|lia].
      now apply nth_error_app1.
    + destruct (Nat.ltb_spec j (length acc + 1)) as [L'|L'].
      * assert (j = length acc) by lia. subst j.
        rewrite nth_error_app2, Nat.sub_diag by lia. simpl.
        unfold result_of_query. simpl. now rewrite Nat.add_0_r, G.
      * replace (j - length acc) with (S (j - (length acc + 1))) by lia. simpl.
        now replace (i + S (j - (length acc + 1))) with (S (i + (j - (length acc + 1)))) by lia.
Qed.

(** C4: the batch loop stores exactly one result per query, and the result
    at index [i] is the result of scraping the query at index [i]. *)
Theorem batch_preserves_order machines browser_type headless_mode delay_seconds
    debug_mode (queries : list (string * string)) :
  let results :=
    batch_loop machines browser_type headless_mode delay_seconds debug_mode
               0 queries [] in
  List.length results = List.length queries /\
  forall i,
    nth_error results i
    = option_map
        (result_of_query machines browser_type headless_mode delay_seconds debug_mode i)
        (nth_error queries i).
Proof.
  simpl. split.
  - now rewrite batch_loop_length.
  - intros i. rewrite batch_loop_nth. simpl. now rewrite Nat.sub_0_r.
Qed.

(** The handler of the button, when it runs the loop, pairs the two input
    columns in order. *)
Lemma scrape_results_one_per_query order machines reg_numbers dobs bt hm ds dm
    all_results tables :
  scrape_results order machines reg_numbers dobs bt hm ds dm = Some (all_results, tables) ->
  List.length all_results = List.length reg_numbers /\
  List.length all_results = List.length dobs /\
  tables = process_results_for_export order all_results.
Proof.
  unfold scrape_results. destruct reg_numbers as [|r rs]; [discriminate|].
  destruct dobs as [|d ds']; [discriminate|].
  remember (r :: rs) as regs. remember (d :: ds') as births.
  destruct (Nat.eqb_spec (length regs) (length births)) as [E|]; [|discriminate].
  intros [= <- <-]. rewrite batch_loop_length, length_combine, <- E, Nat.min_id.
  simpl. auto.
Qed.

(** *** Evaluations *)

(** C6: a student whose page shows no form field ends in a failure row that
    holds the error alone; the register number and the date of birth of the
    query are not in the failure table.  The same holds when the browser
    cannot be launched. *)
Theorem locate_failure_row_loses_query :
  let out := get_result (Fake.machine Fake.no_form) "111" "01/01/2000" "chrome" true 1 true in
  let df_failed :=
    snd (process_results_for_export Fake.insertion_order [fst (fst out)]) in
  snd (fst out) = false /\
  fst (fst out) = [("Error", "Could not find registration number input field")] /\
  columns df_failed = ["Error"] /\
  cell df_failed 0 "Register Number" = None /\
  cell df_failed 0 "Date of Birth" = None /\
  fst (get_result (Fake.machine Fake.no_form) "111" "01/01/2000" "edge" true 1 true)
  = ([("Error", "Failed to initialize browser driver")], false).
Proof. vm_compute. repeat split. Qed.

(** C7: the row scan accepts a cell that the selector attempt rejects for
    naming a college, and the name of the college becomes the student
    name. *)
Theorem row_scan_accepts_college_name :
  selector_filter "ABC College" = false /\
  row_filter "ABC College" = true /\
  extract_student_name Example.college_page = "ABC College" /\
  dict_get (fst (fst (scrape_result (Fake.answering Example.college_page)
                                    "111" "01/01/2000" 3)))
           "Student Name" = Some "ABC College".
Proof. vm_compute. repeat split. Qed.

(** The sentinel: whatever the page, a success carries a student name. *)
Lemma student_name_always_set driver reg_no dob max_retries :
  snd (fst (scrape_result driver reg_no dob max_retries)) = true ->
  dict_has (fst (fst (scrape_result driver reg_no dob max_retries))) "Student Name" = true.
Proof.
  intros H. pose proof (scrape_result_terminal driver reg_no dob max_retries) as T.
  destruct (fst (scrape_result driver reg_no dob max_retries)) as [d ok]. simpl in *. subst ok.
  inversion T as [r [E | [E | E]] | m Hm | n tables Hn Ht Hne | | e | ]; subst;
    try discriminate.
  apply dict_has_in, dict_update_keys_in. left. simpl. auto.
Qed.

(** The four reject tokens are applied by the selector attempt only. *)
Lemma selector_filter_rejects text :
  selector_filter text = true ->
  text <> "" /\ 3 < PyStr.len text /\
  PyStr.contains "university" (PyStr.lower text) = false /\
  PyStr.contains "madras" (PyStr.lower text) = false /\
  PyStr.contains "institution" (PyStr.lower text) = false /\
  PyStr.contains "college" (PyStr.lower text) = false.
Proof.
  unfold selector_filter. rewrite !andb_true_iff, !negb_true_iff, Nat.ltb_lt.
  intros (((((T & L) & U) & Ma) & I) & C). repeat split; auto.
  now apply truthy_nonempty.
Qed.

Lemma insertion_order_fair : fair Fake.insertion_order.
Proof. intros A s. apply Permutation_refl. Defined.

Lemma reverse_order_fair : fair Fake.reverse_order.
Proof. intros A s. apply Permutation_sym, Permutation_rev. Defined.



(** [known_error_not_retried] on a site answering "Invalid Register
    Number". *)
Lemma known_error_not_retried_witness :
  0 < 3 /\
  submitted (visit (Fake.answering Example.invalid_page) 0) "222" "02/02/2000" /\
  shows_known_error (landed_page (visit (Fake.answering Example.invalid_page) 0)) /\
  submissions (snd (scrape_result (Fake.answering Example.invalid_page)
                                  "222" "02/02/2000" 3)) = 1.
Proof.
  assert (P : 0 < 3) by (repeat constructor).
  assert (S : submitted (visit (Fake.answering Example.invalid_page) 0) "222" "02/02/2000")
    by reflexivity.
  assert (K : shows_known_error (landed_page (visit (Fake.answering Example.invalid_page) 0))).
  { exists "Invalid Register Number". split; [now left | reflexivity]. }
  split; [exact P|]. split; [exact S|]. split; [exact K|].
  exact (proj1 (proj2 (@known_error_not_retried (Fake.answering Example.invalid_page)
                         "222" "02/02/2000" 3 P S K))).
Defined.

(** [normalizer_deterministic] on two opposite iteration orders. *)
Lemma normalizer_deterministic_witness :
  fair Fake.insertion_order /\ fair Fake.reverse_order /\
  process_results_for_export Fake.insertion_order Example.two_successes
  = process_results_for_export Fake.reverse_order Example.two_successes.
Proof.
  split; [exact insertion_order_fair|]. split; [exact reverse_order_fair|].
  exact (@normalizer_deterministic Fake.insertion_order Fake.reverse_order
           Example.two_successes insertion_order_fair reverse_order_fair).
Defined.


(** A case outside [success_table_layout]: a subject code NAME observed at a
    single position is written over the NAME column. *)
Lemma name_code_overwrites_name_column :
  fst (process_results_for_export Fake.insertion_order Example.name_row_success)
  = mkDataFrame ["NAME"; "REG NO"; "DOB"] [[Some "ASHA"; Some "111"; Some "01/01/2000"]].
Proof. reflexivity. Qed.

(** The example of the specification. *)
Lemma column_union_example :
  columns (fst (process_results_for_export Fake.reverse_order Example.two_successes))
  = ["NAME"; "REG NO"; "DOB"; "MTH101_0"; "MTH101_2"; "PHY101"] /\
  rows (fst (process_results_for_export Fake.reverse_order Example.two_successes))
  = [ [Some "Asha"; Some "111"; Some "01/01/2000"; Some "78"; Some "A"; Some "66"];
      [Some "Ravi"; Some "222"; Some "02/02/2000"; Some "54"; Some ""; Some ""] ].
Proof. split; reflexivity. Qed.

Lemma two_successes_no_code code :
  code = "NAME" \/ code = "DOB" -> ~ single_position Example.two_successes code.
Proof.
  intros Hc (p & (r & key & digits & Hr & Hk & Hpat & _) & _).
  assert (Hcode : code <> "MTH101" /\ code <> "PHY101")
    by (destruct Hc as [-> | ->]; split; discriminate).
  simpl in Hr. destruct Hr as [<- | [<- | []]]; simpl in Hk;
    repeat (destruct Hk as [<- | Hk];
            [vm_compute in Hpat;
             first [discriminate | injection Hpat as E1 E2; destruct Hcode; congruence]|]);
    destruct Hk.
Defined.


(** [later_row_overwrites] on the page listing ENG twice: the mark of the
    second row is kept at position 0. *)
Lemma later_row_overwrites_witness :
  let out := scrape_result (Fake.answering Example.duplicate_page) "111" "01/01/2000" 3 in
  out = (fst (fst out), true, snd out) /\
  NoDup (dict_keys (fst (fst out))) /\
  dict_get (fst (fst out)) (subject_key "ENG" 0) = Some "80".
Proof.
  set (driver := Fake.answering Example.duplicate_page).
  assert (E : scrape_result driver "111" "01/01/2000" 3
              = (fst (fst (scrape_result driver "111" "01/01/2000" 3)), true,
                 snd (scrape_result driver "111" "01/01/2000" 3)))
    by reflexivity.
  destruct (later_row_overwrites driver "111" "01/01/2000" 3 E)
    as (ND & n & tables & _ & Ht & W).
  split; [exact E|]. split; [exact ND|].
  assert (T : tables = map Fake.table [Example.duplicate_rows])
    by (vm_compute in Ht; now inversion Ht).
  subst tables.
  apply (W [] (map Fake.td ["ENG"; "English"; "78"; "x"; "A"]) []
           (map Fake.td ["ENG"; "English"; "80"]) []
           "ENG" ["78"; "x"; "A"] ["80"] 0 "80").
  - reflexivity.
  - repeat split; simpl; try lia; try discriminate. eexists _, _. split; reflexivity.
  - repeat split; simpl; try lia; try discriminate. eexists _, _. split; reflexivity.
  - reflexivity.
  - intros r marks [].
Defined.

(** * Further properties *)

(** *** The retry loop *)

(** X1: a scrape loads the page at most [max_retries] times and clicks the
    submit control at most [max_retries] times. *)
Theorem retries_are_bounded driver reg_no dob max_retries :
  attempts (snd (scrape_result driver reg_no dob max_retries)) <= max_retries /\
  submissions (snd (scrape_result driver reg_no dob max_retries)) <= max_retries.
Proof.
  destruct (@scrape_loop_terminal driver reg_no dob max_retries max_retries 0 [] eq_refl)
    as (d & E & G & Hs & _).
  unfold scrape_result. rewrite E. simpl. auto.
Qed.

Lemma steady_ret A (a : A) : steady_flow (ret a).
Proof. intros tr. reflexivity. Qed.

Lemma steady_emit ev : steady_flow (emit ev).
Proof. intros tr. reflexivity. Qed.

Lemma steady_return A r : steady_flow (@return_ A r).
Proof. intros tr. reflexivity. Qed.

Lemma steady_lift A (r : result A) : steady_flow (lift r).
Proof. intros tr. unfold lift. now destruct r. Qed.

Lemma steady_bind A B (m : M A) (f : A -> M B) :
  steady_flow m -> (forall a, steady_flow (f a)) -> steady_flow (bind m f).
Proof.
  intros Hm Hf tr. unfold bind. pose proof (Hm tr) as E.
  destruct (m tr) as [fl tr1], (m []) as [fl0 tr0]. simpl in E. subst fl0.
  destruct fl as [a|r|e]; simpl; auto.
  now rewrite (Hf a tr1), (Hf a tr0).
Qed.

Lemma steady_try A (m h : M A) (c : exn -> bool) :
  steady_flow m -> steady_flow h -> steady_flow (try_except m c h).
Proof.
  intros Hm Hh tr. unfold try_except. pose proof (Hm tr) as E.
  destruct (m tr) as [fl tr1], (m []) as [fl0 tr0]. simpl in E. subst fl0.
  destruct fl as [a|r|e]; simpl; auto.
  destruct (c e); auto. now rewrite (Hh tr1), (Hh tr0).
Qed.

Ltac steady_step :=
  match goal with
  | |- steady_flow (bind _ _) => apply steady_bind; [|intros]
  | |- steady_flow (emit _) => apply steady_emit
  | |- steady_flow (ret _) => apply steady_ret
  | |- steady_flow (return_ _) => apply steady_return
  | |- steady_flow (lift _) => apply steady_lift
  | |- steady_flow (try_except _ _ _) => apply steady_try
  | |- steady_flow (match ?x with _ => _ end) => destruct x
  | |- steady_flow (if ?c then _ else _) => destruct c
  end.

Lemma fill_and_submit_steady v reg_no dob : steady_flow (fill_and_submit v reg_no dob).
Proof.
  unfold fill_and_submit, locate_reg_input, dump_form_not_found. repeat steady_step.
Qed.

Lemma classify_and_extract_steady v reg_no dob :
  steady_flow (classify_and_extract v reg_no dob).
Proof. unfold classify_and_extract. repeat steady_step. Qed.

Lemma attempt_steady v reg_no dob : steady_flow (attempt v reg_no dob).
Proof.
  unfold attempt. apply steady_bind; [apply fill_and_submit_steady|].
  intros a. apply classify_and_extract_steady.
Qed.

Lemma attempt_logs_strict v reg_no dob : logs (attempt v reg_no dob) attempt_post_strict.
Proof.
  unfold attempt. apply logs_bind.
  eapply logs_weaken; [apply fill_and_submit_logs|].
  intros fl d1 (Hget & Hfl). destruct fl as [[]|r|e].
  - eapply logs_weaken; [apply classify_and_extract_logs|].
    intros fl2 d2 (G2 & S2 & H2). unfold attempt_post_strict, attempts, submissions in *.
    rewrite !count_events_app. split; [lia|]. destruct fl2; lia.
  - destruct Hfl. split; auto. lia.
  - split; auto.
Qed.

(** What one more turn of the loop adds to the log, by the way the attempt
    ends. *)
Lemma attempt_from v reg_no dob tr :
  exists delta,
    attempt v reg_no dob tr = (attempt_outcome v reg_no dob, tr ++ delta) /\
    attempt_post_strict (attempt_outcome v reg_no dob) delta.
Proof.
  destruct (attempt_logs_strict v reg_no dob tr) as (delta & E & P).
  exists delta. unfold attempt_outcome. rewrite <- (attempt_steady v reg_no dob tr).
  split; auto. destruct (attempt v reg_no dob tr); simpl in *. now subst.
Qed.

Lemma form_stays_outcome v reg_no dob :
  form_stays v reg_no dob -> attempt_outcome v reg_no dob = Next tt.
Proof.
  intros (S & K & (tables & T & N) & F). unfold submitted, locate_outcome in S.
  unfold attempt_outcome, attempt, bind.
  destruct (fill_and_submit v reg_no dob []) as [fl tr1]. simpl in S. subst fl.
  unfold classify_and_extract. rewrite K. unfold bind, emit, lift. rewrite T. simpl.
  rewrite N. simpl. now rewrite F.
Qed.

Lemma all_attempts_fall_through driver reg_no dob max_retries :
  forall remaining retries tr,
    retries + remaining = max_retries ->
    (forall n, n < max_retries -> attempt_outcome (visit driver n) reg_no dob = Next tt) ->
    exists delta,
      scrape_loop remaining driver reg_no dob max_retries retries tr
      = (max_retries_exceeded reg_no dob, tr ++ delta) /\
      attempts delta = remaining /\ submissions delta = remaining.
Proof.
  induction remaining as [|remaining IH]; intros retries tr Hsum Hall; simpl.
  - exists []. now rewrite app_nil_r.
  - destruct (attempt_from (visit driver retries) reg_no dob tr) as (d1 & E & G & Hs).
    rewrite Hall in E, Hs by lia. rewrite E.
    destruct (IH (retries + 1) (tr ++ d1)) as (d2 & E2 & G2 & S2); [lia|auto|].
    exists (d1 ++ d2). rewrite E2, app_assoc. unfold attempts, submissions in *.
    rewrite !count_events_app. repeat split; lia.
Qed.

(** X2: when at every attempt the form is submitted and the page that
    follows still shows the form, with no known error and no subject row, the
    scrape loads and submits the form [max_retries] times and ends with
    "Maximum retries exceeded". *)
Theorem form_still_visible_exhausts_retries driver reg_no dob max_retries :
  (forall n, n < max_retries -> form_stays (visit driver n) reg_no dob) ->
  let out := scrape_result driver reg_no dob max_retries in
  fst out = max_retries_exceeded reg_no dob /\
  attempts (snd out) = max_retries /\
  submissions (snd out) = max_retries.
Proof.
  intros H.
  destruct (@all_attempts_fall_through driver reg_no dob max_retries max_retries 0 []
              eq_refl) as (d & E & G & Hs).
  - intros n Hn. apply form_stays_outcome. auto.
  - simpl. unfold scrape_result. rewrite E. simpl. auto.
Qed.

Lemma all_attempts_raise driver reg_no dob max_retries (e : nat -> exn) :
  forall remaining retries tr,
    retries + S remaining = max_retries ->
    (forall n, n < max_retries ->
               attempt_outcome (visit driver n) reg_no dob = Throw (e n)) ->
    exists delta,
      scrape_loop (S remaining) driver reg_no dob max_retries retries tr
      = (exception_result (e (max_retries - 1)) reg_no dob, tr ++ delta) /\
      attempts delta = S remaining.
Proof.
  induction remaining as [|remaining IH]; intros retries tr Hsum Hall.
  - destruct (attempt_from (visit driver retries) reg_no dob tr) as (d1 & E & G & Hs).
    rewrite Hall in E by lia. simpl. rewrite E.
    destruct (Nat.leb_spec max_retries (retries + 1)) as [L|L]; [|lia].
    exists d1. replace (max_retries - 1) with retries by lia. auto.
  - destruct (attempt_from (visit driver retries) reg_no dob tr) as (d1 & E & G & Hs).
    rewrite Hall in E by lia.
    change (scrape_loop (S (S remaining)) driver reg_no dob max_retries retries tr)
      with (match attempt (visit driver retries) reg_no dob tr with
            | (Return r, tr') => (r, tr')
            | (Next _, tr') =>
                scrape_loop (S remaining) driver reg_no dob max_retries (retries + 1) tr'
            | (Throw e, tr') =>
                if max_retries <=? retries + 1
                then (exception_result e reg_no dob, tr')
                else scrape_loop (S remaining) driver reg_no dob max_retries
                                 (retries + 1) (tr' ++ [Sleep 2])
            end).
    rewrite E. destruct (Nat.leb_spec max_retries (retries + 1)) as [L|L]; [lia|].
    destruct (IH (retries + 1) ((tr ++ d1) ++ [Sleep 2])) as (d2 & E2 & G2); [lia|auto|].
    exists (d1 ++ [Sleep 2] ++ d2). rewrite E2, <- !app_assoc.
    unfold attempts in *. rewrite !count_events_app. simpl. split; auto. lia.
Qed.

(** X3: when every attempt raises, the scrape makes [max_retries] attempts and
    ends with the text of the last exception, not with "Maximum retries
    exceeded". *)
Theorem exceptions_exhaust_retries driver reg_no dob max_retries (e : nat -> exn) :
  0 < max_retries ->
  (forall n, n < max_retries ->
             attempt_outcome (visit driver n) reg_no dob = Throw (e n)) ->
  let out := scrape_result driver reg_no dob max_retries in
  fst out = exception_result (e (max_retries - 1)) reg_no dob /\
  attempts (snd out) = max_retries.
Proof.
  intros Hpos H. destruct max_retries as [|k]; [lia|].
  destruct (@all_attempts_raise driver reg_no dob (S k) e k 0 [] eq_refl H)
    as (d & E & G).
  simpl. unfold scrape_result. rewrite E. simpl. auto.
Qed.

(** *** What a scrape returns *)

Lemma subject_key_not_base code i reg_no dob name :
  ~ In (subject_key code i) (dict_keys (base_results reg_no dob name)).
Proof.
  intros H. pose proof (subject_key_underscore code i) as U. simpl in H.
  destruct H as [E | [E | [E | []]]]; rewrite <- E in U; discriminate.
Qed.

Lemma success_is_append reg_no dob name tables :
  dict_update (base_results reg_no dob name) (scan_tables [] tables)
  = base_results reg_no dob name ++ scan_tables [] tables.
Proof.
  apply dict_update_fresh. apply NoDup_app.
  - apply base_results_nodup.
  - rewrite scan_tables_fold. apply scan_fold_nodup. constructor.
  - intros k Hb Hs. apply subject_results_keys in Hs.
    destruct Hs as (code & i & _ & ->). now apply subject_key_not_base in Hb.
Qed.

Lemma success_results_form driver reg_no dob max_retries results tr :
  scrape_result driver reg_no dob max_retries = (results, true, tr) ->
  exists n tables,
    n < max_retries /\
    find_elements (landed_page (visit driver n)) TAG_NAME "table" = Ok tables /\
    results
    = base_results reg_no dob (extract_student_name (landed_page (visit driver n)))
      ++ scan_tables [] tables.
Proof.
  intros H. pose proof (scrape_result_terminal driver reg_no dob max_retries) as T.
  rewrite H in T. simpl in T.
  inversion T as [r [E | [E | E]] | m Hm | n tables Hn Ht Hne | | e | ]; subst;
    try discriminate.
  exists n, tables. repeat split; auto. apply success_is_append.
Qed.

(** X4: a successful result is the register number and the date of birth of
    the query and the student name, in this order, followed by the subject
    entries of the page; no subject entry replaces one of the three. *)
Theorem success_echoes_query driver reg_no dob max_retries results tr :
  scrape_result driver reg_no dob max_retries = (results, true, tr) ->
  exists n tables,
    n < max_retries /\
    find_elements (landed_page (visit driver n)) TAG_NAME "table" = Ok tables /\
    results
    = [ ("Register Number", reg_no);
        ("Date of Birth", dob);
        ("Student Name", extract_student_name (landed_page (visit driver n))) ]
      ++ scan_tables [] tables.
Proof. exact (@success_results_form driver reg_no dob max_retries results tr). Qed.

(** X5: a failed scrape returns either the bare error of a field that was not
    found, or an error together with the register number and the date of
    birth of the query, and nothing else. *)
Theorem failure_results_shape driver reg_no dob max_retries :
  let r := fst (scrape_result driver reg_no dob max_retries) in
  snd r = false ->
  locate_failure r \/
  exists error_msg,
    fst r = [ ("Error", error_msg); ("Register Number", reg_no); ("Date of Birth", dob) ].
Proof.
  simpl. intros F. pose proof (scrape_result_terminal driver reg_no dob max_retries) as T.
  destruct (fst (scrape_result driver reg_no dob max_retries)) as [d ok].
  simpl in F. subst ok.
  inversion T as [r L | m Hm | n tables Hn Ht Hne | | e | ]; subst; simpl; eauto.
Qed.

Lemma row_filter_plausible s : row_filter s = true -> plausible_name s.
Proof.
  unfold row_filter, plausible_name.
  rewrite !andb_true_iff, !negb_true_iff, Nat.ltb_lt. tauto.
Qed.

Lemma bold_filter_plausible s : bold_filter s = true -> plausible_name s.
Proof.
  unfold bold_filter, plausible_name.
  rewrite !andb_true_iff, !negb_true_iff, Nat.ltb_lt. tauto.
Qed.

Lemma sentinel_plausible : plausible_name name_extraction_failed.
Proof. split; [|split]; vm_compute; auto. repeat constructor. Qed.

(** X6: whatever the page, the student name stored is longer than three
    characters and contains neither "university" nor "madras" in any
    case. *)
Theorem student_name_is_plausible (p : Page) : plausible_name (extract_student_name p).
Proof.
  unfold extract_student_name.
  destruct (match name_by_selectors p name_selectors with
            | Some e => Some e
            | None => name_by_rows p
            end) as [e|].
  - destruct (row_filter (PyStr.strip (el_text e))) eqn:F.
    + now apply row_filter_plausible.
    + apply sentinel_plausible.
  - destruct (find_elements p XPATH "//b | //strong") as [bold|]; [|apply sentinel_plausible].
    unfold name_by_bold.
    destruct (find bold_filter _) as [text|] eqn:F; [|apply sentinel_plausible].
    apply find_some in F. now apply bold_filter_plausible.
Qed.

(** *** Which keys the subject scan writes *)

Lemma dict_has_get d k : dict_has d k = true <-> dict_get d k <> None.
Proof. unfold dict_has. destruct (dict_get d k); split; congruence. Qed.

Lemma scan_cells_writes d cells code i :
  dict_has (scan_cells d cells) (subject_key code i) = true <->
  dict_has d (subject_key code i) = true \/
  exists marks, qualifying cells code marks /\ i < List.length marks.
Proof.
  destruct (scan_cells_cases d cells) as [(code' & marks' & Q) | [E N]].
  - rewrite (scan_cells_qualifying d Q). rewrite !dict_has_get.
    destruct (String.eqb_spec code' code) as [-> | Ne].
    + rewrite store_marks_get. simpl. rewrite Nat.sub_0_r.
      destruct (nth_error marks' i) as [m|] eqn:Nth.
      * split; [|congruence]. intros _. right. exists marks'. split; auto.
        apply nth_error_Some. congruence.
      * split; auto. intros [H | (marks & Q' & L)]; auto.
        destruct (qualifying_functional Q Q') as [_ <-].
        apply nth_error_None in Nth. lia.
    + rewrite store_marks_other by assumption. split; auto.
      intros [H | (marks & Q' & _)]; auto.
      destruct (qualifying_functional Q Q'). congruence.
  - rewrite E. split; auto. intros [H | (marks & Q & _)]; auto. now apply N in Q.
Qed.

Lemma scan_fold_writes rows code i : forall d,
  dict_has (fold_left scan_cells rows d) (subject_key code i) = true <->
  dict_has d (subject_key code i) = true \/
  exists cells marks, In cells rows /\ qualifying cells code marks /\ i < List.length marks.
Proof.
  induction rows as [|r rows IH]; intros d; simpl.
  - split; auto. intros [H | (c & m & [] & _)]; auto.
  - rewrite IH, scan_cells_writes. split.
    + intros [[H | (m & Q & L)] | (c & m & I & Q & L)]; eauto 8.
    + intros [H | (c & m & [<- | I] & Q & L)]; eauto 8.
Qed.

Lemma scan_tables_writes tables code i :
  dict_has (scan_tables [] tables) (subject_key code i) = true <->
  exists cells marks,
    In cells (rows_read tables) /\ qualifying cells code marks /\ i < List.length marks.
Proof.
  rewrite scan_tables_fold, scan_fold_writes. split; auto.
  intros [H | H]; auto. discriminate.
Qed.

(** X7: the subject entries have a key for position [i] of a code exactly
    when some row read from the page qualifies with that code and has more
    than [i] cells after its second. *)
Theorem subject_key_written_iff tables code i :
  dict_has (scan_tables [] tables) (subject_key code i) = true <->
  exists cells marks,
    In cells (rows_read tables) /\ qualifying cells code marks /\ i < List.length marks.
Proof. exact (scan_tables_writes tables code i). Qed.

Lemma qualifying_has_mark cells code marks : qualifying cells code marks -> 0 < List.length marks.
Proof.
  intros (L & _ & _ & _ & ->). rewrite length_map, length_skipn. lia.
Qed.

(** X8: the page yields subject data, hence a success, exactly when some row
    read has at least three cells and a first cell whose stripped text is not
    empty and has at most 15 characters. *)
Theorem subject_data_iff_qualifying_row tables :
  scan_tables [] tables <> [] <->
  exists cells code marks, In cells (rows_read tables) /\ qualifying cells code marks.
Proof.
  split.
  - intros H. destruct (scan_tables [] tables) as [|[k v] d] eqn:S; [congruence|].
    assert (Hk : In k (dict_keys (scan_tables [] tables))) by (rewrite S; now left).
    destruct (subject_results_keys _ _ Hk) as (code & i & _ & ->).
    apply dict_has_in, scan_tables_writes in Hk.
    destruct Hk as (cells & marks & I & Q & _). eauto.
  - intros (cells & code & marks & I & Q) E.
    assert (H : dict_has (scan_tables [] tables) (subject_key code 0) = true).
    { apply scan_tables_writes. exists cells, marks.
      split; [exact I|]. split; [exact Q|]. eapply qualifying_has_mark; eauto. }
    rewrite E in H. discriminate.
Qed.

(** *** From the keys of the extractor to the pattern of the export *)

Lemma span_app p x u y :
  p u = false ->
  span p (x ++ String u y)%string
  = (fst (span p x), (snd (span p x) ++ String u y)%string).
Proof.
  intros Hu. induction x as [|c x IH]; simpl.
  - now rewrite Hu.
  - destruct (p c); [|reflexivity].
    rewrite IH. now destruct (span p x).
Qed.

Lemma span_all_chars p x : PyStr.all_chars p x = true -> span p x = (x, EmptyString).
Proof.
  induction x as [|c x IH]; simpl; auto.
  intros H. apply andb_true_iff in H. destruct H as [Hc H].
  now rewrite Hc, (IH H).
Qed.

(** Where [span] stops, a character outside the class follows. *)
Lemma span_stops p x :
  PyStr.all_chars p x = false ->
  exists c r, snd (span p x) = String c r /\ p c = false.
Proof.
  induction x as [|c x IH]; simpl; [discriminate|].
  destruct (p c) eqn:Hc; simpl.
  - intros H. destruct (IH H) as (c' & r & E & Hc'). exists c', r.
    destruct (span p x). auto.
  - intros _. exists c, x. auto.
Qed.

Lemma span_fst_empty p x : fst (span p x) = EmptyString -> x = EmptyString \/ PyStr.all_chars p x = false.
Proof.
  destruct x as [|c x]; simpl; auto.
  destruct (p c); simpl; auto. destruct (span p x); discriminate.
Qed.

Lemma digits_all_digit d :
  PyStr.all_chars PyStr.is_digit_char (NilEmpty.string_of_uint d) = true.
Proof. induction d; simpl; auto. Qed.

Lemma str_all_digit n : PyStr.all_chars PyStr.is_digit_char (PyStr.str n) = true.
Proof.
  unfold PyStr.str, NilZero.string_of_uint.
  destruct (Nat.to_uint n) eqn:E; try (rewrite <- E; apply digits_all_digit).
  reflexivity.
Qed.

Lemma str_nonempty n : PyStr.str n <> "".
Proof.
  unfold PyStr.str, NilZero.string_of_uint.
  destruct (Nat.to_uint n); simpl; discriminate.
Qed.

Lemma int_acc_digits d : forall acc,
  PyStr.int_acc acc (NilEmpty.string_of_uint d) = Nat.of_uint_acc d acc.
Proof.
  induction d; intros acc; simpl; auto;
    rewrite IHd, Nat.tail_mul_spec; f_equal; unfold PyStr.digit_value; simpl; lia.
Qed.

(** [int(str(n)) == n] *)
Lemma int_str n : PyStr.int (PyStr.str n) = n.
Proof.
  unfold PyStr.int, PyStr.str, NilZero.string_of_uint.
  pose proof (to_uint_not_nil n) as N. pose proof (Unsigned.of_to n) as E.
  destruct (Nat.to_uint n) eqn:U; try congruence;
    rewrite <- U, int_acc_digits, U; exact E.
Qed.

(** After an underscore, what the digits leave is neither empty nor a
    newline. *)
Lemma tail_after_underscore t y :
  (String.eqb (t ++ String "_" y) "" || String.eqb (t ++ String "_" y) newline) = false.
Proof.
  destruct t as [|c t]; [reflexivity|]. simpl.
  destruct (Ascii.eqb c (ascii_of_nat 10)); [|reflexivity].
  destruct t; reflexivity.
Qed.

Lemma pattern_of_subject_key code i :
  subject_code_pattern (subject_key code i)
  = if exportable code then Some (code, PyStr.str i) else None.
Proof.
  unfold subject_code_pattern, subject_key, exportable.
  change (code ++ "_" ++ PyStr.str i)%string with (code ++ String "_" (PyStr.str i))%string.
  rewrite span_app by reflexivity.
  destruct (PyStr.all_chars PyStr.is_alnum_char code) eqn:A.
  - rewrite (span_all_chars _ _ A). simpl. rewrite andb_true_r.
    destruct code as [|c code]; [reflexivity|]. simpl PyStr.truthy. cbv iota.
    change (Ascii.eqb "_" "_") with true. cbv iota.
    rewrite (span_all_chars _ _ (str_all_digit i)).
    destruct (PyStr.str i) eqn:S; [now apply str_nonempty in S|reflexivity].
  - rewrite andb_false_r. destruct (span_stops _ _ A) as (c & r & E & Hc).
    rewrite E. simpl.
    destruct (fst (span PyStr.is_alnum_char code)); [reflexivity|].
    destruct (Ascii.eqb_spec c "_") as [-> | N]; [|reflexivity].
    rewrite span_app by reflexivity.
    destruct (fst (span PyStr.is_digit_char r)); [reflexivity|].
    now rewrite tail_after_underscore.
Qed.

(** X9: the pattern of the export reads back a key of the extractor exactly
    when the subject code is not empty and made of letters and digits; it
    then gives the code and the digits of the position, which [int] turns
    back into the position the key was built from. *)
Theorem pattern_reads_subject_key code i :
  subject_code_pattern (subject_key code i)
  = (if exportable code then Some (code, PyStr.str i) else None) /\
  PyStr.int (PyStr.str i) = i.
Proof. split; [apply pattern_of_subject_key | apply int_str]. Qed.

Lemma base_keys_unmatched reg_no dob name key :
  In key (dict_keys (base_results reg_no dob name)) -> subject_code_pattern key = None.
Proof. simpl. intros [<- | [<- | [<- | []]]]; reflexivity. Qed.

(** X10: of the subject entries of a successful scrape, the export registers
    those whose code is not empty and made of letters and digits, each at
    the position of its key, and no others: a subject whose code has a space,
    a dot or a dash gets no column. *)
Theorem export_registers_alnum_codes driver reg_no dob max_retries results tr code p :
  scrape_result driver reg_no dob max_retries = (results, true, tr) ->
  observed [results] code p <->
  exportable code = true /\ dict_has results (subject_key code p) = true.
Proof.
  intros H. destruct (success_results_form _ _ _ _ H) as (n & tables & _ & _ & E).
  split.
  - intros (r & key & digits & [<- | []] & Hk & Pat & Hp).
    assert (Hk' := Hk). rewrite E in Hk'. unfold dict_keys in Hk'.
    rewrite map_app, in_app_iff in Hk'. destruct Hk' as [B | S].
    + apply (@base_keys_unmatched reg_no dob
               (extract_student_name (landed_page (visit driver n))) key) in B.
      congruence.
    + apply subject_results_keys in S. destruct S as (c & i & _ & ->).
      rewrite pattern_of_subject_key in Pat.
      destruct (exportable c) eqn:X; [|discriminate].
      injection Pat as <- <-. rewrite int_str in Hp. subst p.
      split; auto. now apply dict_has_in.
  - intros (X & Hk). apply dict_has_in in Hk.
    exists results, (subject_key code p), (PyStr.str p).
    repeat split; auto.
    + now left.
    + now rewrite pattern_of_subject_key, X.
    + apply int_str.
Qed.

(** *** The two tables of the export *)

Lemma filter_split_length A (f : A -> bool) l :
  List.length (filter (fun x => negb (f x)) l) + List.length (filter f l) = List.length l.
Proof.
  induction l as [|x l IH]; simpl; auto.
  destruct (f x); simpl; lia.
Qed.

Lemma frame_rows_length records :
  List.length (rows (frame_of_records records)) = List.length records.
Proof. simpl. apply length_map. Qed.

Lemma export_rows order all_results :
  List.length (rows (fst (process_results_for_export order all_results)))
  = List.length (filter (fun r => negb (is_failed r)) all_results) /\
  List.length (rows (snd (process_results_for_export order all_results)))
  = List.length (filter is_failed all_results).
Proof.
  unfold process_results_for_export.
  destruct (filter (fun r => negb (is_failed r)) all_results) as [|s ss];
    destruct (filter is_failed all_results) as [|f fs]; simpl;
    rewrite ?length_map; auto.
Qed.

(** X11: no result is dropped by the export: the rows of the two tables
    together are as many as the results, the successes in one and the
    failures in the other. *)
Theorem export_keeps_every_result order all_results :
  let tables := process_results_for_export order all_results in
  List.length (rows (fst tables)) + List.length (rows (snd tables))
  = List.length all_results.
Proof.
  simpl. destruct (export_rows order all_results) as [-> ->].
  apply filter_split_length.
Qed.

Lemma filter_twice A (f : A -> bool) l : filter f (filter f l) = filter f l.
Proof.
  induction l as [|x l IH]; simpl; auto.
  destruct (f x) eqn:E; simpl; rewrite ?E, IH; reflexivity.
Qed.

Lemma filter_opposite A (f : A -> bool) l : filter (fun x => negb (f x)) (filter f l) = [].
Proof.
  induction l as [|x l IH]; simpl; auto.
  destruct (f x) eqn:E; simpl; rewrite ?E; auto.
Qed.

(** X12: the success table is computed from the successes alone and the
    failure table from the failures alone: removing the results of the other
    kind from the input changes neither. *)
Theorem tables_are_independent order all_results :
  fst (process_results_for_export order all_results)
  = fst (process_results_for_export order
           (filter (fun r => negb (is_failed r)) all_results)) /\
  snd (process_results_for_export order all_results)
  = snd (process_results_for_export order (filter is_failed all_results)).
Proof.
  unfold process_results_for_export. split.
  - rewrite filter_twice.
    destruct (filter (fun r => negb (is_failed r)) all_results); reflexivity.
  - rewrite filter_twice, filter_opposite.
    destruct (filter (fun r => negb (is_failed r)) all_results); reflexivity.
Qed.

Lemma add_columns_in K : forall cols k,
  In k (fold_left add_column K cols) <-> In k cols \/ In k K.
Proof.
  induction K as [|k0 K IH]; intros cols k; simpl.
  - tauto.
  - rewrite IH. unfold add_column.
    destruct (existsb (String.eqb k0) cols) eqn:E.
    + apply existsb_exists in E. destruct E as (x & Hx & E).
      apply String.eqb_eq in E. subst x. intuition (subst; auto).
    + rewrite in_app_iff. simpl. intuition.
Qed.

Lemma union_columns_in records k :
  In k (union_columns records) <-> exists r, In r records /\ In k (dict_keys r).
Proof.
  unfold union_columns.
  assert (G : forall cols,
             In k (fold_left (fun cols r => fold_left add_column (dict_keys r) cols)
                             records cols)
             <-> In k cols \/ exists r, In r records /\ In k (dict_keys r)).
  { induction records as [|r records IH]; intros cols; simpl.
    - split; auto. intros [H | (r & [] & _)]; auto.
    - rewrite IH, add_columns_in. split.
      + intros [[H | H] | (r' & I & H)]; eauto.
      + intros [H | (r' & [<- | I] & H)]; eauto. }
  rewrite G. split; auto. intros [[] | H]; auto.
Qed.

(** The cell of a frame is the value of the record of that row. *)
Lemma cell_of_frame records i r c :
  nth_error records i = Some r -> In c (union_columns records) ->
  cell (frame_of_records records) i c = Some (dict_get r c).
Proof.
  intros Hi Hc. unfold cell, frame_of_records. simpl.
  rewrite nth_error_map, Hi. simpl.
  now rewrite (@find_in_paired (dict_get r) c _ Hc).
Qed.

(** X13: the failure table keeps the failures in their order and as they
    are: row [i] is the [i]-th failure, every key of it is a column, its cell
    under "Error" holds its error and its cell under any column holds its
    value for that key, or a missing value when it lacks the key (no empty
    string is filled in, unlike in the success table). *)
Theorem failure_table_keeps_failures order all_results i r :
  nth_error (filter is_failed all_results) i = Some r ->
  let df_failed := snd (process_results_for_export order all_results) in
  (forall k, dict_has r k = true -> In k (columns df_failed)) /\
  (forall c, In c (columns df_failed) -> cell df_failed i c = Some (dict_get r c)) /\
  exists error_msg,
    dict_get r "Error" = Some error_msg /\
    cell df_failed i "Error" = Some (Some error_msg).
Proof.
  intros Hi. simpl.
  assert (Hin : In r (filter is_failed all_results)) by (eapply nth_error_In; eauto).
  assert (E : snd (process_results_for_export order all_results)
              = frame_of_records (filter is_failed all_results)).
  { unfold process_results_for_export.
    destruct (filter is_failed all_results) as [|f fs]; [destruct Hin|].
    destruct (filter (fun r => negb (is_failed r)) all_results); reflexivity. }
  rewrite E.
  assert (Hkeys : forall k, dict_has r k = true ->
                            In k (union_columns (filter is_failed all_results))).
  { intros k Hk. apply union_columns_in. exists r. split; auto. now apply dict_has_in. }
  split; [exact Hkeys|]. split.
  - intros c Hc. now apply cell_of_frame.
  - apply filter_In in Hin. destruct Hin as [_ F]. unfold is_failed in F.
    assert (F' := F). unfold dict_has in F'.
    destruct (dict_get r "Error") as [msg|] eqn:G; [|discriminate].
    exists msg. split; auto. rewrite <- G. apply cell_of_frame; auto.
Qed.

(** *** [split] *)





Lemma split_on_pieces sep s :
  Forall (fun p => PyStr.has_char sep p = false) (split_on sep s).
Proof.
  induction s as [|c s IH]; simpl.
  - repeat constructor.
  - destruct (Ascii.eqb c sep) eqn:E.
    + constructor; auto.
    + destruct (split_on sep s) as [|p ps]; [repeat constructor; simpl|].
      * now rewrite Ascii.eqb_sym, E.
      * inversion IH; subst. constructor; auto. simpl.
        now rewrite Ascii.eqb_sym, E.
Qed.

(** *** The date format of the validation *)




(** *** [validate_excel_file] *)

Lemma date_errors_none date_col : forall i,
  date_errors i date_col = [] <-> text_dates_ok date_col.
Proof.
  unfold text_dates_ok. induction date_col as [|v rest IH]; intros i; simpl.
  - split; auto.
  - split.
    + intros H. apply app_eq_nil in H. destruct H as [Hv H]. constructor.
      * destruct v as [dob | |]; auto. destruct (date_format_ok dob); [auto|discriminate].
      * now apply (IH (S i)).
    + intros H. inversion H as [|? ? Hv Hr]; subst.
      rewrite (proj2 (IH (S i)) Hr), app_nil_r.
      destruct v as [dob | |]; auto. now rewrite Hv.
Qed.

(** X15: the validation reports nothing exactly when both required columns
    are present, neither has a null cell, and every date of birth given as
    text has the accepted format; dates of another type are not examined. *)
Theorem validation_passes_iff (df : InputFrame) :
  validate_excel_file df = [] <->
  has_column df "Register Number" = true /\
  has_column df "Date of Birth" = true /\
  existsb is_null (column df "Register Number") = false /\
  existsb is_null (column df "Date of Birth") = false /\
  text_dates_ok (column df "Date of Birth").
Proof.
  unfold validate_excel_file, required_columns. simpl.
  destruct (has_column df "Register Number") eqn:R;
    destruct (has_column df "Date of Birth") eqn:D; simpl;
    try (split; [discriminate | intros (A & B & _); discriminate]).
  destruct (existsb is_null (column df "Register Number")) eqn:NR; simpl;
    [split; [discriminate | intros (_ & _ & A & _); discriminate]|].
  destruct (existsb is_null (column df "Date of Birth")) eqn:ND; simpl;
    [split; [discriminate | intros (_ & _ & _ & A & _); discriminate]|].
  rewrite date_errors_none. tauto.
Qed.

Lemma date_errors_report date_col : forall i0 i dob,
  nth_error date_col i = Some (Text dob) ->
  date_format_ok dob = false ->
  In (row_error (i0 + i) dob) (date_errors i0 date_col).
Proof.
  induction date_col as [|v rest IH]; intros i0 i dob Hn Hf; [destruct i; discriminate|].
  simpl. apply in_app_iff. destruct i as [|i]; simpl in Hn.
  - left. injection Hn as ->. rewrite Hf, Nat.add_0_r. now left.
  - right. replace (i0 + S i) with (S i0 + i) by lia. now apply IH.
Qed.

(** X16: when the column of dates is present, every date given as text in a
    format that is not accepted is reported, with the number of its row
    counted from 1. *)
Theorem malformed_dates_are_reported (df : InputFrame) i dob :
  has_column df "Date of Birth" = true ->
  nth_error (column df "Date of Birth") i = Some (Text dob) ->
  date_format_ok dob = false ->
  In (row_error i dob) (validate_excel_file df).
Proof.
  intros D Hn Hf. unfold validate_excel_file. rewrite D.
  rewrite !in_app_iff. right. right. right.
  now apply (date_errors_report _ 0).
Qed.

(** *** [strip] and the manual entry *)

Lemma rstrip_idempotent s : PyStr.rstrip (PyStr.rstrip s) = PyStr.rstrip s.
Proof.
  induction s as [|c s IH]; simpl; auto.
  destruct (PyStr.rstrip s) as [|d r] eqn:R.
  - destruct (PyStr.is_space_char c) eqn:Sp; simpl; auto. now rewrite Sp.
  - simpl. simpl in IH. destruct (PyStr.rstrip r) as [|d' r'] eqn:R'.
    + destruct (PyStr.is_space_char d); [discriminate|]. now rewrite IH.
    + now rewrite IH.
Qed.

Lemma lstrip_clean s : left_clean (PyStr.lstrip s).
Proof.
  induction s as [|c s IH]; simpl; auto.
  destruct (PyStr.is_space_char c) eqn:Sp; simpl; auto.
Qed.

Lemma lstrip_of_clean s : left_clean s -> PyStr.lstrip s = s.
Proof. destruct s as [|c s]; simpl; auto. now intros ->. Qed.

Lemma rstrip_keeps_clean s : left_clean s -> left_clean (PyStr.rstrip s).
Proof.
  destruct s as [|c s]; simpl; auto. intros Sp.
  destruct (PyStr.rstrip s); [rewrite Sp|]; simpl; auto.
Qed.

Lemma strip_idempotent s : PyStr.strip (PyStr.strip s) = PyStr.strip s.
Proof.
  unfold PyStr.strip.
  rewrite (@lstrip_of_clean _ (@rstrip_keeps_clean _ (lstrip_clean s))).
  apply rstrip_idempotent.
Qed.

(** X17: every register number or date taken from a text area is non-empty
    and has no white space at either end: blank lines are dropped and the
    others stripped. *)
Theorem manual_entries_are_stripped text :
  Forall (fun entry => entry <> "" /\ PyStr.strip entry = entry) (manual_entries text).
Proof.
  unfold manual_entries. destruct (PyStr.truthy text); [|constructor].
  apply Forall_forall. intros entry H. apply in_map_iff in H.
  destruct H as (x & <- & Hx). apply filter_In in Hx. destruct Hx as [_ T].
  split; [now apply truthy_nonempty | apply strip_idempotent].
Qed.

(** *** The handler of the button and [get_result] *)

Lemma scrape_results_runs_iff order machines reg_numbers dobs bt hm ds dm :
  scrape_results order machines reg_numbers dobs bt hm ds dm <> None <->
  reg_numbers <> [] /\ dobs <> [] /\ List.length reg_numbers = List.length dobs.
Proof.
  unfold scrape_results.
  destruct reg_numbers as [|r rs]; [split; [congruence | intros (A & _); congruence]|].
  destruct dobs as [|d ds']; [split; [congruence | intros (_ & A & _); congruence]|].
  remember (r :: rs) as regs. remember (d :: ds') as births.
  destruct (Nat.eqb_spec (length regs) (length births)) as [E | N].
  - split; [intros _ | discriminate]. subst. repeat split; auto; discriminate.
  - split; [congruence | intros (_ & _ & A); congruence].
Qed.

(** X19: the handler runs the batch exactly when both lists are non-empty and
    of the same length; it then scrapes one result per register number and
    per date, and exports exactly these results. *)
Theorem handler_runs_iff order machines reg_numbers dobs bt hm ds dm :
  (scrape_results order machines reg_numbers dobs bt hm ds dm <> None <->
   reg_numbers <> [] /\ dobs <> [] /\ List.length reg_numbers = List.length dobs) /\
  forall all_results tables,
    scrape_results order machines reg_numbers dobs bt hm ds dm
    = Some (all_results, tables) ->
    List.length all_results = List.length reg_numbers /\
    List.length all_results = List.length dobs /\
    tables = process_results_for_export order all_results.
Proof.
  split.
  - apply scrape_results_runs_iff.
  - intros all_results tables. apply scrape_results_one_per_query.
Qed.

(** X18: with manual entry the batch runs exactly when the two text areas
    give the same number of entries, and at least one: lists of different
    lengths are emptied before the handler sees them. *)
Theorem manual_batch_runs_iff order machines reg_input dob_input bt hm ds dm :
  scrape_results order machines (fst (manual_input reg_input dob_input))
                 (snd (manual_input reg_input dob_input)) bt hm ds dm <> None <->
  manual_entries reg_input <> [] /\
  List.length (manual_entries reg_input) = List.length (manual_entries dob_input).
Proof.
  rewrite scrape_results_runs_iff.
  unfold manual_input.
  destruct (manual_entries reg_input) as [|r rs];
    [simpl; split; [intros (A & _) | intros (A & _)]; congruence|].
  destruct (manual_entries dob_input) as [|d ds'];
    [simpl; split; [intros (_ & A & _); congruence | intros (_ & A); discriminate]|].
  remember (r :: rs) as regs. remember (d :: ds') as births.
  destruct (Nat.eqb_spec (length regs) (length births)) as [E | N]; simpl.
  - subst. split; [intros _ | intros _]; repeat split; auto; discriminate.
  - split; [intros (A & _) | intros (_ & A)]; congruence.
Qed.

(** X20: whatever the machine and the settings, [get_result] loads the page
    at most three times and submits the form at most three times for one
    student. *)
Theorem get_result_tries_three_times m regno dob browser_choice headless delay debug_mode :
  let tr := snd (get_result m regno dob browser_choice headless delay debug_mode) in
  attempts tr <= 3 /\ submissions tr <= 3.
Proof.
  unfold get_result. destruct (setup_driver m browser_choice headless) as [driver|].
  - destruct (@scrape_loop_terminal driver regno dob 3 3 0 [] eq_refl)
      as (d & E & G & Hs & _).
    fold (scrape_result driver regno dob 3) in E.
    destruct (scrape_result driver regno dob 3) as [outcome tr].
    simpl in E. subst d.
    assert (B : attempts (if 0 <? delay then tr ++ [Sleep delay] else tr) <= 3 /\
                submissions (if 0 <? delay then tr ++ [Sleep delay] else tr) <= 3).
    { destruct (0 <? delay); auto. unfold attempts, submissions in *.
      rewrite !count_events_app. unfold count_events in *. simpl. lia. }
    destruct (quit driver); simpl; exact B.
  - unfold attempts, submissions, count_events. simpl. lia.
Qed.

(** *** Locating the submit control *)

(** X21: the submit control taken from a list of locators is the first
    element answered by the first locator of the list that answers any; a
    locator that raises is passed over like one that finds nothing. *)
Theorem first_located_priority (p : Page) locators e :
  first_located p locators = Some e <->
  exists before by_ value others after,
    locators = before ++ (by_, value) :: after /\
    Forall (answers_nothing p) before /\
    find_elements p by_ value = Ok (e :: others).
Proof.
  induction locators as [|[b v] rest IH]; simpl.
  - split; [discriminate|]. intros (before & b & v & o & a & E & _).
    destruct before; discriminate.
  - destruct (find_elements p b v) as [[|x xs]|err] eqn:F.
    + rewrite IH. split.
      * intros (before & b' & v' & o & a & -> & Hb & Hf).
        exists ((b, v) :: before), b', v', o, a. repeat split; auto.
        constructor; auto. unfold answers_nothing. simpl. now rewrite F.
      * intros (before & b' & v' & o & a & E & Hb & Hf).
        destruct before as [|l before]; simpl in E.
        -- injection E as E1 E2 E3. subst. congruence.
        -- injection E as E1 E2. inversion Hb; subst. eauto 10.
    + split.
      * intros [= <-]. exists [], b, v, xs, rest. repeat split; auto.
      * intros (before & b' & v' & o & a & E & Hb & Hf).
        destruct before as [|l before]; simpl in E.
        -- injection E as E1 E2 E3. subst. congruence.
        -- injection E as E1 E2. subst l. inversion Hb as [|? ? Hl _]; subst.
           unfold answers_nothing in Hl. simpl in Hl. now rewrite F in Hl.
    + rewrite IH. split.
      * intros (before & b' & v' & o & a & -> & Hb & Hf).
        exists ((b, v) :: before), b', v', o, a. repeat split; auto.
        constructor; auto. unfold answers_nothing. simpl. now rewrite F.
      * intros (before & b' & v' & o & a & E & Hb & Hf).
        destruct before as [|l before]; simpl in E.
        -- injection E as E1 E2 E3. subst. congruence.
        -- injection E as E1 E2. inversion Hb; subst. eauto 10.
Qed.

(** *** The classifier ignores case *)






(** *** The leading cells of the success table *)

(** X23: under the conditions of [success_table_layout], the cells of a row
    under NAME, REG NO and DOB hold the student name, the register number and
    the date of birth of the result of that row, or the empty string for one
    the result lacks. *)
Theorem success_table_identity_cells (order : set_order) (rs : list dict) i r :
  fair order ->
  Forall (fun r => is_failed r = false) rs ->
  ~ single_position rs "NAME" ->
  ~ single_position rs "DOB" ->
  nth_error rs i = Some r ->
  let df := fst (process_results_for_export order rs) in
  cell df i "NAME" = Some (Some (dict_get_default r "Student Name" "")) /\
  cell df i "REG NO" = Some (Some (dict_get_default r "Register Number" "")) /\
  cell df i "DOB" = Some (Some (dict_get_default r "Date of Birth" "")).
Proof.
  intros Fair Hok HN HD Hi.
  assert (Hne : rs <> []) by (intros ->; destruct i; discriminate).
  set (codes := export_codes order rs).
  set (layout := export_layout order rs).
  assert (Hrows : forall x, student_row_of order (first_pass rs) codes x
                            = leading_row x ++ layout_cells x layout)
    by (intros x; now apply student_row_layout).
  assert (Hkeys : forall x, dict_keys (leading_row x ++ layout_cells x layout)
                            = leading_columns ++ registry_columns layout).
  { intros x. unfold dict_keys. rewrite map_app. fold (dict_keys (layout_cells x layout)).
    now rewrite layout_cells_keys. }
  assert (Hdf : fst (process_results_for_export order rs)
                = frame_of_records (map (student_row_of order (first_pass rs) codes) rs)).
  { unfold process_results_for_export.
    rewrite (@filter_all _ (fun r => negb (is_failed r)) rs).
    - destruct rs; [congruence|reflexivity].
    - eapply Forall_impl; [|exact Hok]. intros x Hx. simpl in Hx. now rewrite Hx. }
  assert (Hcols : union_columns (map (student_row_of order (first_pass rs) codes) rs)
                  = leading_columns ++ registry_columns layout).
  { apply union_columns_uniform.
    - destruct rs; [congruence|discriminate].
    - now apply row_columns_nodup.
    - apply Forall_forall. intros row Hrow. apply in_map_iff in Hrow.
      destruct Hrow as (x & <- & _). now rewrite Hrows, Hkeys. }
  assert (Hcell : forall c v, In (c, v) (leading_row r) ->
                    cell (fst (process_results_for_export order rs)) i c = Some (Some v)).
  { intros c v Hin. rewrite Hdf.
    apply cell_of_record with (r := student_row_of order (first_pass rs) codes r).
    - now rewrite nth_error_map, Hi.
    - rewrite Hrows, Hkeys. now apply row_columns_nodup.
    - rewrite Hrows. apply in_app_iff. now left.
    - rewrite Hcols. apply in_app_iff. left.
      apply (in_map fst) in Hin. exact Hin. }
  simpl. repeat split; apply Hcell; simpl; auto.
Qed.

Lemma form_still_visible_exhausts_retries_witness :
  (forall n, n < 3 ->
             form_stays (visit (Fake.answering More.stuck_page) n) "111" "01/01/2000") /\
  fst (scrape_result (Fake.answering More.stuck_page) "111" "01/01/2000" 3)
  = max_retries_exceeded "111" "01/01/2000" /\
  attempts (snd (scrape_result (Fake.answering More.stuck_page) "111" "01/01/2000" 3)) = 3.
Proof.
  assert (H : forall n, n < 3 ->
                form_stays (visit (Fake.answering More.stuck_page) n) "111" "01/01/2000").
  { intros n _. split; [reflexivity|]. split; [reflexivity|].
    split; [exists []; split; reflexivity | reflexivity]. }
  split; [exact H|].
  pose proof (@form_still_visible_exhausts_retries
                (Fake.answering More.stuck_page) "111" "01/01/2000" 3 H) as T.
  split; [exact (proj1 T) | exact (proj1 (proj2 T))].
Defined.

Lemma exceptions_exhaust_retries_witness :
  0 < 3 /\
  (forall n, n < 3 ->
             attempt_outcome (visit More.unreachable n) "111" "01/01/2000"
             = Throw (WebDriverException "net::ERR_NAME_NOT_RESOLVED")) /\
  dict_get (fst (fst (scrape_result More.unreachable "111" "01/01/2000" 3))) "Error"
  = Some "Exception: net::ERR_NAME_NOT_RESOLVED".
Proof.
  assert (P : 0 < 3) by (repeat constructor).
  assert (H : forall n, n < 3 ->
                attempt_outcome (visit More.unreachable n) "111" "01/01/2000"
                = Throw (WebDriverException "net::ERR_NAME_NOT_RESOLVED"))
    by (intros n _; reflexivity).
  split; [exact P|]. split; [exact H|].
  pose proof (@exceptions_exhaust_retries More.unreachable "111" "01/01/2000" 3
                (fun _ => WebDriverException "net::ERR_NAME_NOT_RESOLVED") P H) as T.
  cbv zeta in T. destruct T as [T _]. rewrite T. reflexivity.
Defined.

Lemma success_echoes_query_witness :
  let out := scrape_result (Fake.answering Example.duplicate_page) "111" "01/01/2000" 3 in
  out = (fst (fst out), true, snd out) /\
  firstn 2 (fst (fst out)) = [("Register Number", "111"); ("Date of Birth", "01/01/2000")].
Proof.
  set (driver := Fake.answering Example.duplicate_page).
  assert (E : scrape_result driver "111" "01/01/2000" 3
              = (fst (fst (scrape_result driver "111" "01/01/2000" 3)), true,
                 snd (scrape_result driver "111" "01/01/2000" 3)))
    by reflexivity.
  split; [exact E|].
  destruct (success_echoes_query driver "111" "01/01/2000" 3 E) as (n & tables & _ & _ & R).
  cbv zeta. rewrite R. reflexivity.
Defined.

Lemma failure_results_shape_witness :
  snd (fst (scrape_result Fake.no_form "111" "01/01/2000" 3)) = false /\
  (locate_failure (fst (scrape_result Fake.no_form "111" "01/01/2000" 3)) \/
   exists error_msg,
     fst (fst (scrape_result Fake.no_form "111" "01/01/2000" 3))
     = [ ("Error", error_msg); ("Register Number", "111");
         ("Date of Birth", "01/01/2000") ]).
Proof.
  assert (F : snd (fst (scrape_result Fake.no_form "111" "01/01/2000" 3)) = false)
    by reflexivity.
  split; [exact F|].
  exact (@failure_results_shape Fake.no_form "111" "01/01/2000" 3 F).
Defined.

Lemma export_registers_alnum_codes_witness :
  let out := scrape_result (Fake.answering Example.duplicate_page) "111" "01/01/2000" 3 in
  out = (fst (fst out), true, snd out) /\
  observed [fst (fst out)] "ENG" 0.
Proof.
  set (driver := Fake.answering Example.duplicate_page).
  assert (E : scrape_result driver "111" "01/01/2000" 3
              = (fst (fst (scrape_result driver "111" "01/01/2000" 3)), true,
                 snd (scrape_result driver "111" "01/01/2000" 3)))
    by reflexivity.
  split; [exact E|].
  apply (proj2 (@export_registers_alnum_codes driver "111" "01/01/2000" 3 _ _ "ENG" 0 E)).
  split; reflexivity.
Defined.

Lemma failure_table_keeps_failures_witness :
  nth_error (filter is_failed [ [("Error", "Could not find submit button")] ]) 0
  = Some [("Error", "Could not find submit button")] /\
  exists error_msg,
    cell (snd (process_results_for_export Fake.insertion_order
                 [ [("Error", "Could not find submit button")] ])) 0 "Error"
    = Some (Some error_msg).
Proof.
  assert (H : nth_error (filter is_failed [ [("Error", "Could not find submit button")] ]) 0
              = Some [("Error", "Could not find submit button")]) by reflexivity.
  split; [exact H|].
  destruct (@failure_table_keeps_failures Fake.insertion_order _ 0 _ H)
    as (_ & _ & msg & _ & C).
  exists msg. exact C.
Defined.

Lemma malformed_dates_are_reported_witness :
  has_column More.dashed_upload "Date of Birth" = true /\
  nth_error (column More.dashed_upload "Date of Birth") 1 = Some (Text "02-02-2000") /\
  date_format_ok "02-02-2000" = false /\
  In "Row 2: Date of birth '02-02-2000' is not in DD/MM/YYYY format"
     (validate_excel_file More.dashed_upload).
Proof.
  assert (A : has_column More.dashed_upload "Date of Birth" = true) by reflexivity.
  assert (B : nth_error (column More.dashed_upload "Date of Birth") 1
              = Some (Text "02-02-2000")) by reflexivity.
  assert (C : date_format_ok "02-02-2000" = false) by reflexivity.
  split; [exact A|]. split; [exact B|]. split; [exact C|].
  exact (@malformed_dates_are_reported More.dashed_upload 1 "02-02-2000" A B C).
Defined.

Lemma success_table_identity_cells_witness :
  fair Fake.reverse_order /\
  Forall (fun r => is_failed r = false) Example.two_successes /\
  ~ single_position Example.two_successes "NAME" /\
  ~ single_position Example.two_successes "DOB" /\
  cell (fst (process_results_for_export Fake.reverse_order Example.two_successes))
       1 "NAME" = Some (Some "Ravi").
Proof.
  assert (F : Forall (fun r => is_failed r = false) Example.two_successes)
    by (repeat constructor).
  assert (HN : ~ single_position Example.two_successes "NAME")
    by (apply two_successes_no_code; now left).
  assert (HD : ~ single_position Example.two_successes "DOB")
    by (apply two_successes_no_code; now right).
  split; [exact reverse_order_fair|]. split; [exact F|].
  split; [exact HN|]. split; [exact HD|].
  exact (proj1 (@success_table_identity_cells Fake.reverse_order Example.two_successes
                  1 _ reverse_order_fair F HN HD eq_refl)).
Defined.
